(** * codebase-context: the walker, the ranking and the token-budget selector

    A shallow embedding of [codebase_context/main.py].  The functions that
    decide which files enter the generated context file are embedded:
    [estimate_tokens], [get_file_info], [should_include_file],
    [scan_codebase] and the selection part of [generate_context_file]
    (the priority partition and the greedy walk under the token budget).
    Of the renderer, [generate_tree_structure] and the figures computed by
    [generate_summary] are embedded; the formatting of numbers and dates is
    left out.

    Conventions.
    - A Python [str] is a [string]; one [ascii] stands for one character,
      the one with that code point (0 to 255), so [String.length] is
      Python's [len] and [String.compare] is Python's code-point-wise
      ordering of [str].
    - A [pathlib.Path] is the list of its [parts].
    - A Python [int] is a [Z].
    - A [set] that is only tested for membership is a list.
    - The directory tree is a list of entries in the order in which
      [root.rglob('*')] yields them. *)

From Stdlib Require Import List String Ascii ZArith Bool Lia Arith.
From Stdlib Require Import Sorting.Sorted Sorting.Permutation.
Import ListNotations.

Local Open Scope string_scope.
Local Open Scope list_scope.
Local Open Scope Z_scope.

(** ** Python strings *)

Module PyStr.

(** [c.lower()] on one character.  Among the code points 0 to 255 the
    characters with a different lower-case form are [A]..[Z] (65 to 90) and
    the accented capitals 192 to 214 and 216 to 222; each goes to the
    character 32 places further.  Every other character, the multiplication
    sign 215 and the sharp s 223 among them, is its own lower-case form. *)
Definition lower_char (c : ascii) : ascii :=
  let n := nat_of_ascii c in
  if ((65 <=? n) && (n <=? 90)
      || (192 <=? n) && (n <=? 214)
      || (216 <=? n) && (n <=? 222))%nat
  then ascii_of_nat (n + 32)
  else c.

(** [s.lower()], character by character. *)
Fixpoint lower (s : string) : string :=
  match s with
  | EmptyString => EmptyString
  | String c s' => String (lower_char c) (lower s')
  end.

(** [s.rfind('.')]: the index of the last dot, [None] for Python's [-1]. *)
Fixpoint rfind_dot (s : string) : option nat :=
  match s with
  | EmptyString => None
  | String c s' =>
      match rfind_dot s' with
      | Some i => Some (S i)
      | None => if Ascii.eqb c "."%char then Some 0%nat else None
      end
  end.

(** [s.count('\n')] *)
Fixpoint count_newlines (s : string) : Z :=
  match s with
  | EmptyString => 0
  | String c s' =>
      (if Ascii.eqb c "010"%char then 1 else 0) + count_newlines s'
  end.

(** [len(s)] *)
Definition len (s : string) : Z := Z.of_nat (String.length s).

(** [x in xs] for a collection of strings. *)
Definition mem (x : string) (xs : list string) : bool :=
  existsb (String.eqb x) xs.

(** [n] copies of the character [c]. *)
Fixpoint replicate (n : nat) (c : ascii) : string :=
  match n with
  | O => EmptyString
  | S n' => String c (replicate n' c)
  end.

End PyStr.

(** ** pathlib paths *)

Definition Path := list string.

Module PyPath.

(** [path.name]: the final component. *)
Definition name (p : Path) : string := last p "".

(** [path.suffix]: with [i = name.rfind('.')], the suffix is [name[i:]]
    when [0 < i < len(name) - 1] and the empty string otherwise, so a
    leading dot ([.bashrc]) or a trailing dot ([notes.]) starts no suffix. *)
Definition suffix (p : Path) : string :=
  let nm := name p in
  match PyStr.rfind_dot nm with
  | Some i =>
      if ((0 <? i) && (S i <? String.length nm))%nat
      then substring i (String.length nm - i) nm
      else ""
  | None => ""
  end.

(** [str(path)] of a relative path: the parts joined by [/]; the empty
    relative path prints as a dot. *)
Definition str (p : Path) : string :=
  match p with
  | [] => "."
  | _ => String.concat "/" p
  end.

End PyPath.

(** ** The static configuration tables *)

Definition CODE_EXTENSIONS : list string :=
  [ ".py"; ".js"; ".jsx"; ".ts"; ".tsx"; ".java"; ".c"; ".cpp"; ".h"; ".hpp";
    ".cs"; ".go"; ".rs"; ".rb"; ".php"; ".swift"; ".kt"; ".scala"; ".r";
    ".html"; ".css"; ".scss"; ".sass"; ".vue"; ".svelte";
    ".json"; ".yaml"; ".yml"; ".toml"; ".xml";
    ".sql"; ".sh"; ".bash"; ".ps1"; ".bat";
    ".md"; ".txt"; ".rst" ].

Definition SKIP_DIRS : list string :=
  [ "node_modules"; "venv"; "env"; ".env"; "__pycache__"; ".git"; ".svn";
    "dist"; "build"; "target"; "bin"; "obj"; ".idea"; ".vscode";
    "coverage"; ".pytest_cache"; ".mypy_cache"; "vendor"; "bower_components";
    "*_venv" ].

Definition SKIP_FILES : list string :=
  [ ".DS_Store"; "Thumbs.db"; ".gitignore"; ".dockerignore";
    "package-lock.json"; "yarn.lock"; "poetry.lock"; "Pipfile.lock" ].

(** ** The metadata extractor *)

(** [estimate_tokens(text)]: [len(text) // 4]. *)
Definition estimate_tokens (text : string) : Z := PyStr.len text / 4.

(** The dictionary built by [get_file_info]. *)
Record FileInfo := mkFileInfo {
  info_size : Z;
  info_lines : Z;
  info_tokens : Z;
  info_content : string
}.

(** [get_file_info(filepath)].  The argument is the outcome of opening and
    reading the file: [Some content], or [None] when that raises, in which
    case the [except] branch returns [None]. *)
Definition get_file_info (read : option string) : option FileInfo :=
  match read with
  | Some content =>
      let lines := PyStr.count_newlines content + 1 in
      let tokens := estimate_tokens content in
      Some (mkFileInfo (PyStr.len content) lines tokens content)
  | None => None
  end.

(** ** The file filter *)

(** Truthiness of an optional collection: [None] and the empty collection
    are both false. *)
Definition truthy {A} (o : option (list A)) : bool :=
  match o with
  | Some (_ :: _) => true
  | _ => false
  end.

(** [should_include_file(filepath, custom_extensions)].  The allow-list is
    the caller's when it is given and not empty, [CODE_EXTENSIONS]
    otherwise; only the suffix of the file is lower-cased. *)
Definition should_include_file (filepath : Path)
    (custom_extensions : option (list string)) : bool :=
  if PyStr.mem (PyPath.name filepath) SKIP_FILES then false
  else
    let extensions :=
      match custom_extensions with
      | Some (e :: es) => e :: es
      | _ => CODE_EXTENSIONS
      end in
    PyStr.mem (PyStr.lower (PyPath.suffix filepath)) extensions
    || String.eqb (PyPath.suffix filepath) "".


(** ** The walker *)

(** One item yielded by [root.rglob('*')]: the path below the root, whether
    it is a directory, and what reading it as text gives. *)
Record FsEntry := mkFsEntry {
  entry_rel : Path;
  entry_is_dir : bool;
  entry_read : option string
}.

(** The dictionary appended to [files_data]. *)
Record FileRecord := mkFileRecord {
  path : Path;
  full_path : Path;
  size : Z;
  lines : Z;
  tokens : Z;
  content : string
}.

(** [any(skip_dir in filepath.parts for skip_dir in SKIP_DIRS)] *)
Definition in_skip_dir (filepath : Path) : bool :=
  existsb (fun skip_dir => PyStr.mem skip_dir filepath) SKIP_DIRS.

(** The body of the [for filepath in root.rglob('*')] loop: [None] where the
    body runs into a [continue], the appended record otherwise. *)
Definition scan_visit (root : Path) (custom_extensions : option (list string))
    (e : FsEntry) : option FileRecord :=
  let filepath := (root ++ entry_rel e) in
  if entry_is_dir e then None
  else if in_skip_dir filepath then None
  else if negb (should_include_file filepath custom_extensions) then None
  else
    match get_file_info (entry_read e) with
    | None => None
    | Some info =>
        let relative_path := entry_rel e in
        Some (mkFileRecord relative_path filepath (info_size info)
                (info_lines info) (info_tokens info) (info_content info))
    end.

(** The loop itself, threading [files_data] and [total_tokens]. *)
Definition scan_loop (root : Path) (custom_extensions : option (list string))
    (fs : list FsEntry) (st : list FileRecord * Z) : list FileRecord * Z :=
  fold_left
    (fun '(files_data, total_tokens) e =>
       match scan_visit root custom_extensions e with
       | None => (files_data, total_tokens)
       | Some r => ((files_data ++ [r]), total_tokens + tokens r)
       end)
    fs st.

(** The sort key [(x['tokens'], str(x['path']))] and Python's [<] on such
    pairs. *)
Definition sort_key (x : FileRecord) : Z * string :=
  (tokens x, PyPath.str (path x)).

Definition key_ltb (k1 k2 : Z * string) : bool :=
  if fst k1 =? fst k2 then String.ltb (snd k1) (snd k2)
  else fst k1 <? fst k2.

(** [list.sort(key=...)] is a stable sort that compares keys with [<] only;
    it is embedded as the stable insertion sort, which returns the same
    list. *)
Fixpoint sort_insert (x : FileRecord) (l : list FileRecord) : list FileRecord :=
  match l with
  | [] => [x]
  | y :: l' =>
      if key_ltb (sort_key y) (sort_key x) then y :: sort_insert x l'
      else x :: y :: l'
  end.

Definition sort_by_key (l : list FileRecord) : list FileRecord :=
  fold_right sort_insert [] l.

(** [scan_codebase(root_path, max_tokens, custom_extensions)] *)
Definition scan_codebase (root : Path) (fs : list FsEntry) (max_tokens : Z)
    (custom_extensions : option (list string)) : list FileRecord * Z :=
  let '(files_data, total_tokens) :=
    scan_loop root custom_extensions fs ([], 0) in
  (sort_by_key files_data, total_tokens).

(** ** The selector *)

(** [str(f['path']) in priority_set] *)
Definition in_priority (priority_files : option (list string))
    (f : FileRecord) : bool :=
  match priority_files with
  | Some ps => PyStr.mem (PyPath.str (path f)) ps
  | None => false
  end.

Definition priority_data (priority_files : option (list string))
    (files_data : list FileRecord) : list FileRecord :=
  filter (in_priority priority_files) files_data.

Definition other_data (priority_files : option (list string))
    (files_data : list FileRecord) : list FileRecord :=
  filter (fun f => negb (in_priority priority_files f)) files_data.

(** The candidate order: [priority_data + other_data] under
    [if priority_files:], the scan order otherwise. *)
Definition reorder (priority_files : option (list string))
    (files_data : list FileRecord) : list FileRecord :=
  if truthy priority_files
  then (priority_data priority_files files_data
        ++ other_data priority_files files_data)
  else files_data.

(** The greedy walk, threading [selected_files] and [running_tokens]; the
    [break] returns the state reached so far. *)
Fixpoint walk (max_tokens : Z) (files_data : list FileRecord)
    (selected_files : list FileRecord) (running_tokens : Z)
    : list FileRecord * Z :=
  match files_data with
  | [] => (selected_files, running_tokens)
  | file_info :: rest =>
      if running_tokens + tokens file_info >? max_tokens
      then (selected_files, running_tokens)
      else walk max_tokens rest (selected_files ++ [file_info])
             (running_tokens + tokens file_info)
  end.

(** What [generate_context_file] hands to the renderer. *)
Record Generated := mkGenerated {
  candidates : list FileRecord;
  selected_files : list FileRecord;
  running_tokens : Z
}.

(** [generate_context_file(root_path, output_file, max_tokens, include_tree,
    custom_extensions, priority_files)], up to the point where the output
    file is written. *)
Definition generate_context_file (root : Path) (fs : list FsEntry)
    (max_tokens : Z) (custom_extensions : option (list string))
    (priority_files : option (list string)) : Generated :=
  let '(files_data, total_tokens) :=
    scan_codebase root fs max_tokens custom_extensions in
  let files_data := reorder priority_files files_data in
  let '(selected, running) := walk max_tokens files_data [] 0 in
  mkGenerated files_data selected running.

(** The sum of the token estimates of a list of records. *)
Definition sum_tokens (l : list FileRecord) : Z :=
  fold_right (fun f acc => tokens f + acc) 0 l.

(** ** The run report *)

(** The number printed in the closing warning,
    [len(files_data) - len(selected_files)], and the test that guards it,
    [len(selected_files) < len(files_data)]. *)
Definition excluded_count (g : Generated) : Z :=
  Z.of_nat (List.length (candidates g))
  - Z.of_nat (List.length (selected_files g)).

Definition limit_reported (g : Generated) : bool :=
  (List.length (selected_files g) <? List.length (candidates g))%nat.

(** ** Dictionaries *)

(** A [dict] with string keys: the list of its items in insertion order. *)
Module PyDict.

Definition t (V : Type) : Type := list (string * V).

(** [d.get(k)] *)
Fixpoint get {V} (k : string) (d : t V) : option V :=
  match d with
  | [] => None
  | (k', v) :: d' => if String.eqb k k' then Some v else get k d'
  end.

(** [d[k] = v]: a present key keeps its place, a new key goes last. *)
Fixpoint set {V} (k : string) (v : V) (d : t V) : t V :=
  match d with
  | [] => [(k, v)]
  | (k', v') :: d' =>
      if String.eqb k k' then (k, v) :: d' else (k', v') :: set k v d'
  end.

Definition keys {V} (d : t V) : list string := map fst d.

End PyDict.

(** ** The tree view *)

Definition newline : string := String "010"%char EmptyString.

(** [Path(root_path).name]: the last part, and the empty string for a path
    that is its anchor alone. *)
Definition root_name (root : Path) : string :=
  match root with
  | [a] => if String.prefix "/" a then "" else a
  | _ => last root ""
  end.

(** The line of a file at the top level, and of a file inside a group. *)
Definition top_line (file_info : FileRecord) : string :=
  String.append "├── " (PyPath.name (path file_info)).

Definition nested_line (f : FileRecord) : string :=
  String.append "│   ├── " (PyPath.name (path f)).

Definition dir_line (dir_name : string) : string :=
  String.append "├── 📁 " (String.append dir_name "/").

(** The body of the first loop of [generate_tree_structure]: a path of more
    than one part goes to the group of its first part, created when it is
    not there yet; any other path gives a line at once. *)
Definition tree_visit (st : list string * PyDict.t (list FileRecord))
    (file_info : FileRecord) : list string * PyDict.t (list FileRecord) :=
  let '(tree_lines, dirs) := st in
  let parts := path file_info in
  if (1 <? List.length parts)%nat then
    let dir_name := hd "" parts in
    let dirs :=
      match PyDict.get dir_name dirs with
      | None => PyDict.set dir_name [] dirs
      | Some _ => dirs
      end in
    let dirs :=
      match PyDict.get dir_name dirs with
      | Some files => PyDict.set dir_name (files ++ [file_info]) dirs
      | None => dirs
      end in
    (tree_lines, dirs)
  else (tree_lines ++ [top_line file_info], dirs).

(** The body of the second loop, over [dirs.items()]. *)
Definition tree_group (tree_lines : list string)
    (item : string * list FileRecord) : list string :=
  let '(dir_name, files) := item in
  (tree_lines ++ [dir_line dir_name]) ++ map nested_line files.

(** [tree_lines] at the end of [generate_tree_structure]. *)
Definition generate_tree_lines (root : Path) (files_data : list FileRecord)
    : list string :=
  let header := String.append "📁 " (String.append (root_name root) "/") in
  let '(tree_lines, dirs) := fold_left tree_visit files_data ([header], []) in
  fold_left tree_group dirs tree_lines.

(** [generate_tree_structure(root_path, files_data)] *)
Definition generate_tree_structure (root : Path)
    (files_data : list FileRecord) : string :=
  String.concat newline (generate_tree_lines root files_data).

(** ** The figures of the summary *)

(** [f['path'].suffix or 'no extension'] *)
Definition ext_label (f : FileRecord) : string :=
  if String.eqb (PyPath.suffix (path f)) "" then "no extension"
  else PyPath.suffix (path f).

(** The dictionary [extensions] built by the breakdown loop of
    [generate_summary]. *)
Definition summary_extensions (files_data : list FileRecord) : PyDict.t Z :=
  fold_left
    (fun extensions f =>
       let ext := ext_label f in
       let seen :=
         match PyDict.get ext extensions with
         | Some n => n
         | None => 0
         end in
       PyDict.set ext (seen + 1) extensions)
    files_data [].

(** [sorted(xs, key=key, reverse=True)]: a stable sort into descending
    order, so that items with equal keys keep their order; embedded as the
    stable insertion sort. *)
Fixpoint desc_insert {A} (key : A -> Z) (x : A) (l : list A) : list A :=
  match l with
  | [] => [x]
  | y :: l' =>
      if key x <? key y then y :: desc_insert key x l' else x :: y :: l'
  end.

Definition sorted_desc {A} (key : A -> Z) (l : list A) : list A :=
  fold_right (desc_insert key) [] l.

(** [sorted(extensions.items(), key=lambda x: x[1], reverse=True)] *)
Definition summary_file_types (files_data : list FileRecord)
    : list (string * Z) :=
  sorted_desc snd (summary_extensions files_data).

(** [sorted(files_data, key=lambda x: x['tokens'], reverse=True)[:5]] *)
Definition summary_largest (files_data : list FileRecord) : list FileRecord :=
  firstn 5 (sorted_desc tokens files_data).

(** [sum(f['lines'] for f in files_data)] and
    [sum(f['size'] for f in files_data)], the latter before the division by
    1024. *)
Definition summary_total_lines (files_data : list FileRecord) : Z :=
  fold_right (fun f acc => lines f + acc) 0 files_data.

Definition summary_total_size (files_data : list FileRecord) : Z :=
  fold_right (fun f acc => size f + acc) 0 files_data.

(** ** Orders and shapes used in the statements *)

(** Ascending order on [(estimatedTokens, relativePath)]: a strictly
    smaller token estimate, or the same estimate and a path that is not
    lexicographically greater. *)
Definition key_le (f g : FileRecord) : Prop :=
  tokens f < tokens g \/
  (tokens f = tokens g /\
   String.leb (PyPath.str (path f)) (PyPath.str (path g)) = true).

(** The record of an entry with the full path recomputed from another
    root. *)
Definition rebase (root : Path) (f : FileRecord) : FileRecord :=
  mkFileRecord (path f) (root ++ path f) (size f) (lines f) (tokens f)
    (content f).

(** The allow-list that [should_include_file] tests against: its local
    [extensions]. *)
Definition active_extensions (custom_extensions : option (list string))
    : list string :=
  match custom_extensions with
  | Some (e :: es) => e :: es
  | _ => CODE_EXTENSIONS
  end.

(** The number of files of [l] that the breakdown files under [label]. *)
Definition label_count (label : string) (l : list FileRecord) : Z :=
  Z.of_nat
    (List.length (filter (fun f => String.eqb (ext_label f) label) l)).

(** The sum of the values of a dictionary of counts. *)
Definition sum_counts (d : PyDict.t Z) : Z :=
  fold_right (fun item acc => snd item + acc) 0 d.

(** A path of more than one part, and the files of [l] that the tree view
    puts in the group [dir_name]. *)
Definition is_nested (f : FileRecord) : bool :=
  (1 <? List.length (path f))%nat.

Definition group_files (dir_name : string) (l : list FileRecord)
    : list FileRecord :=
  filter (fun f => is_nested f && String.eqb (hd "" (path f)) dir_name) l.

(** The lines of one group of the tree view. *)
Definition group_lines (item : string * list FileRecord) : list string :=
  dir_line (fst item) :: map nested_line (snd item).

(** [sub_list s l]: [s] is [l] with some of its items left out. *)
Inductive sub_list {A : Type} : list A -> list A -> Prop :=
| sub_nil : sub_list [] []
| sub_take x s l : sub_list s l -> sub_list (x :: s) (x :: l)
| sub_skip x s l : sub_list s l -> sub_list s (x :: l).

(** [sort_key f == k] *)
Definition same_key (k : Z * string) (f : FileRecord) : bool :=
  (tokens f =? fst k) && String.eqb (PyPath.str (path f)) (snd k).

(** The records appended by the scanning loop, in traversal order. *)
Definition visited (root : Path) (custom_extensions : option (list string))
    (fs : list FsEntry) : list FileRecord :=
  flat_map
    (fun e =>
       match scan_visit root custom_extensions e with
       | Some r => [r]
       | None => []
       end)
    fs.

(** Every file of [l] was appended while the running total stayed within
    the budget [B], starting from the running total [run]. *)
Fixpoint fits (B run : Z) (l : list FileRecord) : Prop :=
  match l with
  | [] => True
  | f :: l' => run + tokens f <= B /\ fits B (run + tokens f) l'
  end.

(** Every regular file of the tree that has an empty suffix and a base
    name outside the skip-file set is a candidate of the scan. *)
Definition extensionless_all_candidates (root : Path) (fs : list FsEntry)
    (max_tokens : Z) (custom_extensions : option (list string)) : Prop :=
  forall e,
    In e fs -> entry_is_dir e = false ->
    PyPath.suffix (root ++ entry_rel e) = "" ->
    PyStr.mem (PyPath.name (root ++ entry_rel e)) SKIP_FILES = false ->
    In (entry_rel e)
      (map path (fst (scan_codebase root fs max_tokens custom_extensions))).

(** The position of the first occurrence of [s] in [l], [length l] when
    there is none. *)
Fixpoint index_of (s : string) (l : list string) : nat :=
  match l with
  | [] => O
  | x :: l' => if String.eqb s x then O else S (index_of s l')
  end.

(** The priority files of [l] stand in the order in which the caller's
    list [ps] names them. *)
Definition in_caller_order (ps : list string) (l : list FileRecord) : Prop :=
  forall i j f g,
    nth_error l i = Some f -> nth_error l j = Some g ->
    PyStr.mem (PyPath.str (path f)) ps = true ->
    PyStr.mem (PyPath.str (path g)) ps = true ->
    (index_of (PyPath.str (path f)) ps < index_of (PyPath.str (path g)) ps)%nat ->
    (i < j)%nat.

(** ** Sample trees *)

Definition text (n : nat) : string := PyStr.replicate n "x".

Definition file (rel : Path) (n : nat) : FsEntry :=
  mkFsEntry rel false (Some (text n)).

Definition dir (rel : Path) : FsEntry := mkFsEntry rel true None.

Definition paths (l : list FileRecord) : list string :=
  map (fun f => PyPath.str (path f)) l.


(** [a.py] has 40 characters (10 tokens), [b.py] has 4000 (1000 tokens). *)
Definition tree_two_files : list FsEntry :=
  [ file ["b.py"] (40 * 100); file ["a.py"] 40 ].

(** [src/main.py] is estimated at 2000 tokens, the two other files at 2 and
    5 tokens. *)
Definition tree_big_main : list FsEntry :=
  [ dir ["src"]; file ["src"; "main.py"] (80 * 100);
    file ["src"; "x.js"] 8; file ["README.md"] 20 ].

(** The same file name under a dependency cache, under a source directory
    and under a directory whose name only contains a skip name. *)
Definition tree_node_modules : list FsEntry :=
  [ dir ["node_modules"]; file ["node_modules"; "x.js"] 8;
    dir ["src"]; file ["src"; "x.js"] 8;
    dir ["builder"]; file ["builder"; "x.js"] 8 ].

(** A lock file and a data file with the same extension. *)
Definition tree_lockfile : list FsEntry :=
  [ file ["package-lock.json"] 400; file ["data.json"] 40 ].

(** Five records as a run may select them: two files at the top level,
    three below two directories. *)
Definition sample_selected : list FileRecord :=
  [ mkFileRecord ["a.py"] ["a.py"] 12 1 3 (text 12);
    mkFileRecord ["src"; "b.py"] ["src"; "b.py"] 28 1 7 (text 28);
    mkFileRecord ["Makefile"] ["Makefile"] 28 1 7 (text 28);
    mkFileRecord ["lib"; "x"; "c.py"] ["lib"; "x"; "c.py"] 4 1 1 (text 4);
    mkFileRecord ["src"; "d.JS"] ["src"; "d.JS"] 36 1 9 (text 36) ].

(** A [Makefile] at the top level and one inside a dependency cache. *)
Definition tree_vendored : list FsEntry :=
  [ file ["Makefile"] 40; dir ["node_modules"];
    file ["node_modules"; "Makefile"] 40 ].

(** Files with the same token estimate, and one priority file. *)
Definition tree_ties : list FsEntry :=
  [ file ["z.py"] 8; file ["b.py"] 8; file ["a.py"] 12;
    file ["c"; "a.py"] 8; file ["main.py"] 40 ].

(** The names [a.É] and [a.é] and the extensions [.É] and [.é], written
    with the characters 201 and 233. *)
Definition name_upper_e : string :=
  String "a" (String "." (String "201" EmptyString)).

Definition name_lower_e : string :=
  String "a" (String "." (String "233" EmptyString)).

Definition ext_upper_e : string := String "." (String "201" EmptyString).

Definition ext_lower_e : string := String "." (String "233" EmptyString).

(** [b.py] is twice as long as [a.py]. *)
Definition tree_a_b : list FsEntry :=
  [ file ["b.py"] 80; file ["a.py"] 40 ].

(** Files without an extension next to a source file. *)
Definition tree_makefile : list FsEntry :=
  [ file ["Makefile"] 40; file ["main.c"] 40; file ["Dockerfile"] 12 ].

(** * Properties *)

(** ** The ordering of sort keys *)

Section KeyOrder.

Lemma ascii_compare_refl (c : ascii) : Ascii.compare c c = Eq.
Proof. unfold Ascii.compare. apply N.compare_refl. Qed.

Lemma ascii_compare_lt_trans (a b c : ascii) :
  Ascii.compare a b = Lt -> Ascii.compare b c = Lt -> Ascii.compare a c = Lt.
Proof.
  unfold Ascii.compare. rewrite !N.compare_lt_iff. apply N.lt_trans.
Qed.

Lemma string_compare_refl (s : string) : String.compare s s = Eq.
Proof.
  induction s as [|c s IH]; simpl; [reflexivity|].
  now rewrite ascii_compare_refl.
Qed.

Lemma string_compare_lt_trans (s1 : string) :
  forall s2 s3,
    String.compare s1 s2 = Lt -> String.compare s2 s3 = Lt ->
    String.compare s1 s3 = Lt.
Proof.
  induction s1 as [|c1 s1 IH]; intros [|c2 s2] [|c3 s3]; simpl;
    try congruence.
  destruct (Ascii.compare c1 c2) eqn:E12; try discriminate;
    destruct (Ascii.compare c2 c3) eqn:E23; try discriminate; intros H1 H2.
  - apply Ascii.compare_eq_iff in E12, E23. subst.
    rewrite ascii_compare_refl. eauto.
  - apply Ascii.compare_eq_iff in E12. subst. now rewrite E23.
  - apply Ascii.compare_eq_iff in E23. subst. now rewrite E12.
  - now rewrite (ascii_compare_lt_trans _ _ _ E12 E23).
Qed.

Lemma string_leb_refl (s : string) : String.leb s s = true.
Proof. unfold String.leb. now rewrite string_compare_refl. Qed.

Lemma string_leb_trans (s1 s2 s3 : string) :
  String.leb s1 s2 = true -> String.leb s2 s3 = true ->
  String.leb s1 s3 = true.
Proof.
  unfold String.leb.
  destruct (String.compare s1 s2) eqn:E12; try discriminate;
    destruct (String.compare s2 s3) eqn:E23; try discriminate; intros _ _.
  - apply String.compare_eq_iff in E12, E23. subst.
    now rewrite string_compare_refl.
  - apply String.compare_eq_iff in E12. subst. now rewrite E23.
  - apply String.compare_eq_iff in E23. subst. now rewrite E12.
  - now rewrite (string_compare_lt_trans _ _ _ E12 E23).
Qed.

Lemma string_ltb_false_leb (s1 s2 : string) :
  String.ltb s1 s2 = false -> String.leb s2 s1 = true.
Proof.
  unfold String.ltb, String.leb. rewrite (String.compare_antisym s1 s2).
  now destruct (String.compare s2 s1).
Qed.

Lemma string_ltb_leb (s1 s2 : string) :
  String.ltb s1 s2 = true -> String.leb s1 s2 = true.
Proof.
  unfold String.ltb, String.leb. now destruct (String.compare s1 s2).
Qed.

Lemma key_le_refl f : key_le f f.
Proof. right. split; [reflexivity | apply string_leb_refl]. Qed.

Lemma key_le_trans f g h : key_le f g -> key_le g h -> key_le f h.
Proof.
  unfold key_le. intros [H1 | [H1 L1]] [H2 | [H2 L2]]; try (left; lia).
  right. split; [lia | eapply string_leb_trans; eauto].
Qed.

Lemma key_ltb_true f g :
  key_ltb (sort_key f) (sort_key g) = true -> key_le f g.
Proof.
  unfold key_ltb, key_le, sort_key. simpl.
  destruct (Z.eqb_spec (tokens f) (tokens g)) as [E | NE]; intros H.
  - right. split; [exact E | now apply string_ltb_leb].
  - left. now apply Z.ltb_lt.
Qed.

Lemma key_ltb_false f g :
  key_ltb (sort_key f) (sort_key g) = false -> key_le g f.
Proof.
  unfold key_ltb, key_le, sort_key. simpl.
  destruct (Z.eqb_spec (tokens f) (tokens g)) as [E | NE]; intros H.
  - right. split; [now symmetry | now apply string_ltb_false_leb].
  - left. apply Z.ltb_ge in H. lia.
Qed.

(** Two records with the same key in both directions agree on the token
    estimate and on the printed path. *)
Lemma key_le_antisym f g :
  key_le f g -> key_le g f ->
  tokens f = tokens g /\ PyPath.str (path f) = PyPath.str (path g).
Proof.
  unfold key_le. intros [H1 | [H1 L1]] [H2 | [H2 L2]]; try lia.
  split; [exact H1 | now apply String.leb_antisym].
Qed.

End KeyOrder.

(** ** The sort *)

Section Sort.

Lemma sort_insert_perm x l : Permutation (x :: l) (sort_insert x l).
Proof.
  induction l as [|y l IH]; simpl; [apply Permutation_refl|].
  destruct (key_ltb (sort_key y) (sort_key x)).
  - eapply perm_trans; [apply perm_swap|]. now apply perm_skip.
  - apply Permutation_refl.
Qed.

Lemma sort_by_key_perm l : Permutation l (sort_by_key l).
Proof.
  induction l as [|x l IH]; simpl; [constructor|].
  eapply perm_trans; [apply perm_skip, IH | apply sort_insert_perm].
Qed.

Lemma sort_insert_sorted x l :
  StronglySorted key_le l -> StronglySorted key_le (sort_insert x l).
Proof.
  induction 1 as [|y l Hs IH Hy]; simpl.
  - constructor; constructor.
  - destruct (key_ltb (sort_key y) (sort_key x)) eqn:E.
    + constructor; [exact IH|].
      apply key_ltb_true in E.
      eapply Permutation_Forall; [apply sort_insert_perm|].
      constructor; assumption.
    + apply key_ltb_false in E.
      constructor; [constructor; assumption|].
      constructor; [exact E|].
      eapply Forall_impl; [|exact Hy].
      intros z Hz. eapply key_le_trans; eauto.
Qed.

Lemma sort_by_key_sorted l : StronglySorted key_le (sort_by_key l).
Proof.
  induction l as [|x l IH]; simpl; [constructor|].
  now apply sort_insert_sorted.
Qed.

Lemma sort_by_key_In x l : In x (sort_by_key l) <-> In x l.
Proof.
  split; apply Permutation_in;
    [apply Permutation_sym|]; apply sort_by_key_perm.
Qed.

(** A filter of a sorted list is sorted. *)
Lemma filter_sorted (p : FileRecord -> bool) l :
  StronglySorted key_le l -> StronglySorted key_le (filter p l).
Proof.
  induction 1 as [|y l Hs IH Hy]; simpl; [constructor|].
  destruct (p y); [|exact IH].
  constructor; [exact IH|].
  rewrite Forall_forall in *. intros z Hz.
  apply filter_In in Hz. now apply Hy.
Qed.

(** Reading [StronglySorted] position by position. *)
Lemma sorted_split l1 f l2 g l3 :
  StronglySorted key_le (l1 ++ f :: l2 ++ g :: l3) -> key_le f g.
Proof.
  induction l1 as [|x l1 IH]; simpl; intros H; inversion H; subst.
  - rewrite Forall_forall in *. match goal with
    | HF : forall _, In _ _ -> key_le f _ |- _ => apply HF end.
    apply in_or_app. right. now left.
  - now apply IH.
Qed.

(** Sorted lists with the same elements are equal when no two distinct
    elements share a key. *)
Lemma sorted_perm_unique l1 :
  forall l2,
    StronglySorted key_le l1 -> StronglySorted key_le l2 ->
    Permutation l1 l2 ->
    (forall a b, In a l1 -> In b l1 -> key_le a b -> key_le b a -> a = b) ->
    l1 = l2.
Proof.
  induction l1 as [|a l1 IH]; intros l2 S1 S2 P A.
  - now apply Permutation_nil in P.
  - destruct l2 as [|b l2];
      [apply Permutation_sym, Permutation_nil in P; discriminate|].
    inversion S1 as [|? ? S1' F1]; inversion S2 as [|? ? S2' F2]; subst.
    rewrite Forall_forall in F1, F2.
    assert (a = b) as ->.
    { assert (Ia : In a (b :: l2))
        by (eapply Permutation_in; [exact P | now left]).
      assert (Ib : In b (a :: l1))
        by (eapply Permutation_in; [apply Permutation_sym, P | now left]).
      destruct Ia as [-> | Ia]; [reflexivity|].
      destruct Ib as [-> | Ib]; [reflexivity|].
      apply A; [now left | now right | now apply F1 | now apply F2]. }
    f_equal. apply IH; try assumption.
    + eapply Permutation_cons_inv; exact P.
    + intros x y Hx Hy. apply A; now right.
Qed.

End Sort.

(** ** The scanning loop *)

Section Scan.

Variable root : Path.
Variable custom_extensions : option (list string).

Lemma sum_tokens_app l1 l2 :
  sum_tokens (l1 ++ l2) = sum_tokens l1 + sum_tokens l2.
Proof. induction l1 as [|x l1 IH]; simpl; lia. Qed.

Lemma scan_loop_spec fs :
  forall acc total,
    scan_loop root custom_extensions fs (acc, total) =
    ((acc ++ visited root custom_extensions fs),
     total + sum_tokens (visited root custom_extensions fs)).
Proof.
  unfold scan_loop, visited.
  induction fs as [|e fs IH]; intros acc total; simpl.
  - now rewrite app_nil_r, Z.add_0_r.
  - destruct (scan_visit root custom_extensions e) as [r|]; rewrite IH; simpl.
    + rewrite <- app_assoc. simpl. f_equal. lia.
    + reflexivity.
Qed.

Lemma scan_codebase_eq fs max_tokens :
  scan_codebase root fs max_tokens custom_extensions =
  (sort_by_key (visited root custom_extensions fs),
   sum_tokens (visited root custom_extensions fs)).
Proof.
  unfold scan_codebase. now rewrite scan_loop_spec.
Qed.

Lemma visited_In fs f :
  In f (visited root custom_extensions fs) <->
  exists e, In e fs /\ scan_visit root custom_extensions e = Some f.
Proof.
  unfold visited. rewrite in_flat_map. split; intros [e [He H]]; exists e.
  - destruct (scan_visit root custom_extensions e) as [r|]; simpl in H;
      [destruct H as [-> | []]; auto | destruct H].
  - rewrite H. split; [exact He | now left].
Qed.

Lemma scan_In fs max_tokens f :
  In f (fst (scan_codebase root fs max_tokens custom_extensions)) <->
  exists e, In e fs /\ scan_visit root custom_extensions e = Some f.
Proof.
  rewrite scan_codebase_eq. simpl. rewrite sort_by_key_In. apply visited_In.
Qed.

(** What one pass of the loop body has checked when it appends a record. *)
Lemma scan_visit_Some e f :
  scan_visit root custom_extensions e = Some f ->
  entry_is_dir e = false /\
  in_skip_dir (root ++ entry_rel e) = false /\
  should_include_file (root ++ entry_rel e) custom_extensions = true /\
  exists text,
    entry_read e = Some text /\
    f = mkFileRecord (entry_rel e) (root ++ entry_rel e) (PyStr.len text)
          (PyStr.count_newlines text + 1) (estimate_tokens text) text.
Proof.
  unfold scan_visit.
  destruct (entry_is_dir e); [discriminate|].
  destruct (in_skip_dir (root ++ entry_rel e)); [discriminate|].
  destruct (should_include_file (root ++ entry_rel e) custom_extensions);
    simpl; [|discriminate].
  destruct (entry_read e) as [text|]; simpl; [|discriminate].
  intros [= <-]. repeat split. now exists text.
Qed.

Lemma estimate_tokens_nonneg text : 0 <= estimate_tokens text.
Proof. unfold estimate_tokens, PyStr.len. apply Z.div_pos; lia. Qed.

Lemma scan_tokens_nonneg fs max_tokens :
  Forall (fun f => 0 <= tokens f)
    (fst (scan_codebase root fs max_tokens custom_extensions)).
Proof.
  apply Forall_forall. intros f Hf. apply scan_In in Hf.
  destruct Hf as [e [_ Hv]]. apply scan_visit_Some in Hv.
  destruct Hv as (_ & _ & _ & text & _ & ->). simpl.
  apply estimate_tokens_nonneg.
Qed.

End Scan.

(** ** The priority partition *)

Section Reorder.

Variable priority_files : option (list string).

Lemma filter_none {A} (p : A -> bool) (l : list A) :
  (forall x, p x = false) -> filter p l = [].
Proof.
  intros H. induction l as [|x l IH]; simpl; [reflexivity|]. now rewrite H.
Qed.

Lemma filter_all {A} (p : A -> bool) (l : list A) :
  (forall x, p x = true) -> filter p l = l.
Proof.
  intros H. induction l as [|x l IH]; simpl; [reflexivity|].
  rewrite H. now f_equal.
Qed.

(** With no priority list, or an empty one, no file is a priority file, so
    the candidate order is in every case the priority files followed by the
    others. *)
Lemma reorder_eq files_data :
  reorder priority_files files_data =
  priority_data priority_files files_data
  ++ other_data priority_files files_data.
Proof.
  unfold reorder, priority_data, other_data.
  destruct priority_files as [[|p ps]|]; simpl; try reflexivity;
    rewrite filter_none, filter_all by reflexivity; reflexivity.
Qed.

Lemma reorder_In files_data f :
  In f (reorder priority_files files_data) <-> In f files_data.
Proof.
  rewrite reorder_eq, in_app_iff. unfold priority_data, other_data.
  rewrite !filter_In. destruct (in_priority priority_files f); simpl.
  - intuition congruence.
  - intuition congruence.
Qed.

End Reorder.

(** ** The greedy walk *)

Section Walk.

Variable B : Z.

Lemma walk_spec files :
  forall sel run,
  exists pre post,
    files = (pre ++ post) /\
    walk B files sel run = ((sel ++ pre), run + sum_tokens pre) /\
    fits B run pre /\
    (post = [] \/
     exists f post', post = f :: post' /\ run + sum_tokens pre + tokens f > B).
Proof.
  induction files as [|f files IH]; intros sel run; simpl.
  - exists [], []. simpl. rewrite app_nil_r, Z.add_0_r. auto.
  - destruct (Z.gtb_spec (run + tokens f) B) as [Hgt | Hle].
    + exists [], (f :: files). simpl. rewrite app_nil_r, !Z.add_0_r.
      repeat split; auto. right. exists f, files. split; [reflexivity | lia].
    + destruct (IH (sel ++ [f]) (run + tokens f))
        as (pre & post & -> & Hw & Hf & Hp).
      exists (f :: pre), post. simpl. rewrite Hw, <- app_assoc. simpl.
      repeat split; auto.
      * f_equal. lia.
      * destruct Hp as [-> | (g & post' & -> & Hg)]; [now left|].
        right. exists g, post'. split; [reflexivity | lia].
Qed.

(** In a list that fits, every file was added under the budget. *)
Lemma fits_split l :
  forall run pre f post,
    fits B run l -> l = (pre ++ f :: post) ->
    run + sum_tokens pre + tokens f <= B.
Proof.
  induction l as [|x l IH]; intros run pre f post Hf E.
  - destruct pre; discriminate.
  - destruct pre as [|y pre]; simpl in *; injection E as -> ->.
    + lia.
    + destruct Hf as [_ Hf].
      specialize (IH _ pre f post Hf eq_refl). lia.
Qed.

Lemma sum_tokens_nonneg l :
  Forall (fun f => 0 <= tokens f) l -> 0 <= sum_tokens l.
Proof. induction 1; simpl; lia. Qed.

End Walk.

(** ** The selection *)

Section Selection.

Variable root : Path.
Variable fs : list FsEntry.
Variable B : Z.
Variable custom_extensions : option (list string).
Variable priority_files : option (list string).

Abbreviation g :=
  (generate_context_file root fs B custom_extensions priority_files).
Abbreviation files_data := (fst (scan_codebase root fs B custom_extensions)).

Lemma generate_candidates : candidates g = reorder priority_files files_data.
Proof.
  unfold generate_context_file.
  destruct (scan_codebase root fs B custom_extensions) as [l t]. simpl.
  now destruct (walk B (reorder priority_files l) [] 0).
Qed.

(** The selection is the prefix of the candidate order cut at the first
    file that does not fit. *)
Lemma generate_walk :
  exists post,
    candidates g = selected_files g ++ post /\
    running_tokens g = sum_tokens (selected_files g) /\
    fits B 0 (selected_files g) /\
    (post = [] \/
     exists f post',
       post = f :: post' /\ sum_tokens (selected_files g) + tokens f > B).
Proof.
  unfold generate_context_file.
  destruct (scan_codebase root fs B custom_extensions) as [l t].
  destruct (walk_spec B (reorder priority_files l) [] 0)
    as (pre & post & E & Hw & Hf & Hp).
  rewrite Hw. simpl. exists post. auto.
Qed.

Lemma selected_In_candidates f :
  In f (selected_files g) -> In f (candidates g).
Proof.
  destruct generate_walk as (post & -> & _). intros H.
  apply in_or_app. now left.
Qed.

Lemma candidates_In_scan f : In f (candidates g) <-> In f files_data.
Proof. rewrite generate_candidates. apply reorder_In. Qed.

Lemma selected_tokens_nonneg :
  Forall (fun f => 0 <= tokens f) (selected_files g).
Proof.
  apply Forall_forall. intros f Hf.
  apply selected_In_candidates, candidates_In_scan in Hf.
  pose proof (scan_tokens_nonneg root custom_extensions fs B) as Hn.
  rewrite Forall_forall in Hn. now apply Hn.
Qed.

Lemma fits_total l : forall run, fits B run l -> run <= B -> run + sum_tokens l <= B.
Proof.
  induction l as [|x l IH]; simpl; intros run Hf Hr; [lia|].
  destruct Hf as [Hx Hf]. specialize (IH _ Hf Hx). lia.
Qed.

End Selection.

(** ** Sorted candidate lists *)

Section SortedCandidates.

Lemma sorted_app_l l1 l2 :
  StronglySorted key_le (l1 ++ l2) -> StronglySorted key_le l1.
Proof.
  induction l1 as [|x l1 IH]; simpl; intros H; [constructor|].
  inversion H as [|? ? Hs Hx]; subst. constructor; [now apply IH|].
  apply Forall_app in Hx. tauto.
Qed.

Lemma NoDup_map_In_inj {A K} (k : A -> K) (l : list A) :
  NoDup (map k l) ->
  forall a b, In a l -> In b l -> k a = k b -> a = b.
Proof.
  induction l as [|x l IH]; simpl; intros N a b Ha Hb E; [contradiction|].
  inversion N as [|? ? Hx N']; subst.
  destruct Ha as [-> | Ha], Hb as [-> | Hb]; auto.
  - exfalso. apply Hx. rewrite E. now apply in_map.
  - exfalso. apply Hx. rewrite <- E. now apply in_map.
Qed.

(** Two sorted lists of the same records are the same list, as soon as no
    two records carry the same relative path. *)
Lemma sorted_candidates_unique l1 l2 :
  StronglySorted key_le l1 -> StronglySorted key_le l2 ->
  Permutation l1 l2 ->
  NoDup (paths l1) ->
  l1 = l2.
Proof.
  intros S1 S2 P N. apply sorted_perm_unique; try assumption.
  intros a b Ha Hb Hab Hba.
  destruct (key_le_antisym a b Hab Hba) as [_ E].
  exact (NoDup_map_In_inj _ _ N a b Ha Hb E).
Qed.

(** The records appended by the loop carry the relative paths of the
    entries they come from. *)
Lemma visited_paths_In root exts fs s :
  In s (paths (visited root exts fs)) ->
  In s (map (fun e => PyPath.str (entry_rel e)) fs).
Proof.
  unfold paths. rewrite !in_map_iff. intros (f & <- & Hf).
  apply visited_In in Hf. destruct Hf as (e & He & Hv).
  apply scan_visit_Some in Hv. destruct Hv as (_ & _ & _ & t & _ & ->).
  exists e. auto.
Qed.

Lemma visited_paths_NoDup root exts fs :
  NoDup (map (fun e => PyPath.str (entry_rel e)) fs) ->
  NoDup (paths (visited root exts fs)).
Proof.
  induction fs as [|e fs IH]; simpl; intros N; [constructor|].
  inversion N as [|? ? He N']; subst.
  change (visited root exts (e :: fs))
    with (match scan_visit root exts e with
          | Some r => [r]
          | None => []
          end ++ visited root exts fs).
  destruct (scan_visit root exts e) as [r|] eqn:Hv; simpl; [|now apply IH].
  constructor; [|now apply IH].
  intros Hin. apply visited_paths_In in Hin. apply He.
  apply scan_visit_Some in Hv. destruct Hv as (_ & _ & _ & t & _ & ->).
  exact Hin.
Qed.

Lemma sum_tokens_perm l1 l2 :
  Permutation l1 l2 -> sum_tokens l1 = sum_tokens l2.
Proof. induction 1; simpl; lia. Qed.

(** The generated selection is a function of the sorted candidate list, the
    budget and the priority list. *)
Lemma generate_of_scan root fs B exts prio :
  generate_context_file root fs B exts prio =
  let files := reorder prio (fst (scan_codebase root fs B exts)) in
  mkGenerated files (fst (walk B files [] 0)) (snd (walk B files [] 0)).
Proof.
  unfold generate_context_file.
  destruct (scan_codebase root fs B exts) as [l t]. simpl.
  now destruct (walk B (reorder prio l) [] 0).
Qed.

Lemma scan_sorted root fs B exts :
  StronglySorted key_le (fst (scan_codebase root fs B exts)).
Proof. rewrite scan_codebase_eq. apply sort_by_key_sorted. Qed.

Lemma scan_unique root1 root2 fs1 fs2 B1 B2 exts1 exts2 :
  NoDup (paths (fst (scan_codebase root1 fs1 B1 exts1))) ->
  Permutation (fst (scan_codebase root1 fs1 B1 exts1))
              (fst (scan_codebase root2 fs2 B2 exts2)) ->
  fst (scan_codebase root1 fs1 B1 exts1)
  = fst (scan_codebase root2 fs2 B2 exts2).
Proof.
  intros N P. apply sorted_candidates_unique; auto using scan_sorted.
Qed.

(** A prefix of the priority files followed by the others is a group of
    priority files followed by a group of others. *)
Lemma prefix_of_partition {A} (p : A -> bool) (l pre post : list A) :
  filter p l ++ filter (fun x => negb (p x)) l = pre ++ post ->
  exists sp so,
    pre = sp ++ so /\
    Forall (fun x => p x = true) sp /\
    Forall (fun x => p x = false) so /\
    (exists t, filter p l = sp ++ t) /\
    (exists t, filter (fun x => negb (p x)) l = so ++ t).
Proof.
  intros E.
  assert (HP : Forall (fun x => p x = true) (filter p l)).
  { apply Forall_forall. intros x Hx. now apply filter_In in Hx. }
  assert (HO : Forall (fun x => p x = false) (filter (fun x => negb (p x)) l)).
  { apply Forall_forall. intros x Hx. apply filter_In in Hx.
    now apply negb_true_iff. }
  apply app_eq_app in E. destruct E as [t [[E1 E2] | [E1 E2]]].
  - exists pre, []. rewrite E1 in HP. apply Forall_app in HP.
    split; [now rewrite app_nil_r|]. split; [tauto|].
    split; [constructor|]. split; [now exists t|].
    now exists (filter (fun x => negb (p x)) l).
  - exists (filter p l), t. rewrite E2 in HO. apply Forall_app in HO.
    split; [exact E1|]. split; [exact HP|]. split; [tauto|].
    split; [exists []; now rewrite app_nil_r | now exists post].
Qed.

End SortedCandidates.

(** ** The directory and file filters *)

Section Filters.

Lemma mem_In x l : PyStr.mem x l = true <-> In x l.
Proof.
  unfold PyStr.mem. rewrite existsb_exists. split.
  - intros (y & Hy & E). apply String.eqb_eq in E. now subst.
  - intros H. exists x. split; [exact H | apply String.eqb_refl].
Qed.

(** The directory test holds exactly when some whole segment of the path
    is one of the skip names. *)
Lemma in_skip_dir_spec p :
  in_skip_dir p = true <-> exists seg, In seg p /\ In seg SKIP_DIRS.
Proof.
  unfold in_skip_dir. rewrite existsb_exists. split.
  - intros (d & Hd & Hm). apply mem_In in Hm. eauto.
  - intros (seg & Hp & Hd). exists seg. split; [exact Hd | now apply mem_In].
Qed.

Lemma scan_visit_skip_dir root exts e :
  in_skip_dir (root ++ entry_rel e) = true -> scan_visit root exts e = None.
Proof.
  intros H. unfold scan_visit. rewrite H. now destruct (entry_is_dir e).
Qed.

(** An entry that passes the four tests of the loop body is appended. *)
Lemma scan_visit_passes root exts e t :
  entry_is_dir e = false ->
  in_skip_dir (root ++ entry_rel e) = false ->
  should_include_file (root ++ entry_rel e) exts = true ->
  entry_read e = Some t ->
  exists f, scan_visit root exts e = Some f /\ path f = entry_rel e.
Proof.
  intros Hd Hs Hi Hr. unfold scan_visit. rewrite Hd, Hs, Hi, Hr. simpl.
  eexists. split; reflexivity.
Qed.

Lemma should_include_extensionless filepath exts :
  PyPath.suffix filepath = "" ->
  PyStr.mem (PyPath.name filepath) SKIP_FILES = false ->
  should_include_file filepath exts = true.
Proof.
  intros Hs Hn. unfold should_include_file. rewrite Hn, Hs.
  apply orb_true_r.
Qed.

End Filters.

(** ** Runs over the same candidates *)

Section SameCandidates.

Lemma generate_same_candidates root1 root2 fs1 fs2 B exts1 exts2 prio :
  fst (scan_codebase root1 fs1 B exts1) = fst (scan_codebase root2 fs2 B exts2) ->
  generate_context_file root1 fs1 B exts1 prio
  = generate_context_file root2 fs2 B exts2 prio.
Proof. intros E. rewrite !generate_of_scan. now rewrite E. Qed.

Lemma visited_perm root exts fs1 fs2 :
  Permutation fs1 fs2 ->
  Permutation (visited root exts fs1) (visited root exts fs2).
Proof. intros P. unfold visited. now apply Permutation_flat_map. Qed.

(** The scan does not depend on the order in which the tree is traversed,
    provided no relative path is yielded twice. *)
Lemma scan_traversal_order root fs1 fs2 B exts :
  NoDup (map (fun e => PyPath.str (entry_rel e)) fs1) ->
  Permutation fs1 fs2 ->
  scan_codebase root fs1 B exts = scan_codebase root fs2 B exts.
Proof.
  intros N P. pose proof (visited_perm root exts _ _ P) as PV.
  rewrite !scan_codebase_eq. f_equal; [|now apply sum_tokens_perm].
  apply sorted_candidates_unique; try apply sort_by_key_sorted.
  - eapply perm_trans; [apply Permutation_sym, sort_by_key_perm|].
    eapply perm_trans; [exact PV | apply sort_by_key_perm].
  - eapply Permutation_NoDup;
      [apply Permutation_map, sort_by_key_perm|].
    now apply visited_paths_NoDup.
Qed.

Lemma visited_skipped_root root exts fs seg :
  In seg root -> In seg SKIP_DIRS -> visited root exts fs = [].
Proof.
  intros Hr Hs. unfold visited.
  induction fs as [|e fs IH]; simpl; [reflexivity|].
  rewrite scan_visit_skip_dir; [exact IH|].
  apply in_skip_dir_spec. exists seg. split; [|exact Hs].
  apply in_or_app. now left.
Qed.

End SameCandidates.

(** ** The sort keeps what it is given *)

Section SortStable.

Lemma key_ltb_not_same x y :
  key_ltb (sort_key y) (sort_key x) = true ->
  forall k, same_key k x = true -> same_key k y = false.
Proof.
  unfold key_ltb, same_key, sort_key. simpl. intros H k Hx.
  apply andb_true_iff in Hx. destruct Hx as [Hx1 Hx2].
  apply Z.eqb_eq in Hx1. apply String.eqb_eq in Hx2.
  apply andb_false_iff.
  destruct (Z.eqb_spec (tokens y) (tokens x)) as [E | NE].
  - right. apply String.eqb_neq. intros Hy. unfold String.ltb in H.
    rewrite Hy, Hx2, string_compare_refl in H. discriminate.
  - left. apply Z.eqb_neq. lia.
Qed.

(** Stability: the records with a given key keep their order. *)
Lemma sort_insert_stable k x l :
  filter (same_key k) (sort_insert x l) = filter (same_key k) (x :: l).
Proof.
  induction l as [|y l IH]; [reflexivity|].
  simpl sort_insert.
  destruct (key_ltb (sort_key y) (sort_key x)) eqn:E; [|reflexivity].
  simpl in IH |- *. rewrite IH.
  destruct (same_key k x) eqn:Hx; [|reflexivity].
  now rewrite (key_ltb_not_same x y E k Hx).
Qed.

Lemma sort_by_key_stable k l :
  filter (same_key k) (sort_by_key l) = filter (same_key k) l.
Proof.
  induction l as [|x l IH]; [reflexivity|].
  simpl sort_by_key. rewrite sort_insert_stable. simpl. now rewrite IH.
Qed.

Lemma filter_comm {A} (p q : A -> bool) l :
  filter p (filter q l) = filter q (filter p l).
Proof.
  induction l as [|x l IH]; simpl; [reflexivity|].
  destruct (p x) eqn:P, (q x) eqn:Q; simpl; rewrite ?P, ?Q, IH; reflexivity.
Qed.

Lemma filter_perm {A} (p : A -> bool) l l' :
  Permutation l l' -> Permutation (filter p l) (filter p l').
Proof.
  induction 1 as [|x l l' H IH|x y l|l l' l'' H1 IH1 H2 IH2]; simpl.
  - constructor.
  - destruct (p x); [now constructor | exact IH].
  - destruct (p x), (p y); try apply Permutation_refl. apply perm_swap.
  - eapply perm_trans; eauto.
Qed.

End SortStable.

(** * The claims *)

(** C1, as amended.  In every run the reported running total is the sum of
    the token estimates of the selected files, and a file is appended only
    when the running total plus its own estimate does not exceed the budget
    [B]; when [B] is not negative, the sum over the selected files is at
    most [B]. *)
Theorem selected_sum_within_budget
    (root : Path) (fs : list FsEntry) (B : Z)
    (custom_extensions priority_files : option (list string)) :
  let g := generate_context_file root fs B custom_extensions priority_files in
  running_tokens g = sum_tokens (selected_files g) /\
  (forall pre f post,
      selected_files g = pre ++ f :: post ->
      sum_tokens pre + tokens f <= B) /\
  (0 <= B -> sum_tokens (selected_files g) <= B).
Proof.
  intros g.
  destruct (generate_walk root fs B custom_extensions priority_files)
    as (post & _ & Hr & Hf & _).
  fold g in Hr, Hf. repeat split.
  - exact Hr.
  - intros pre f post' E.
    pose proof (fits_split B _ 0 pre f post' Hf E). lia.
  - intros HB. pose proof (fits_total B _ 0 Hf HB). lia.
Qed.

Lemma selected_sum_within_budget_witness :
  0 <= 500 /\
  sum_tokens
    (selected_files (generate_context_file [] tree_two_files 500 None None))
  <= 500.
Proof.
  split; [lia|].
  apply (proj2 (proj2 (selected_sum_within_budget [] tree_two_files 500
                         None None))).
  lia.
Defined.

(** C1 as first stated fails for a negative budget: nothing is selected and
    the empty sum, 0, is above the budget. *)
Lemma negative_budget_sum_above :
  ~ (sum_tokens
       (selected_files (generate_context_file [] tree_a_b (-1) None None))
     <= -1).
Proof. vm_compute. intros H. now apply H. Qed.

(** C2.  The selection is the prefix of the candidate order that ends just
    before the first file whose estimate, added to the running total, would
    exceed the budget [B]: every selected file fitted when it was reached,
    the first file left out does not fit, and nothing behind it is looked
    at.  In particular, when the first candidate alone exceeds the budget
    the selection is empty. *)
Theorem walk_stops_at_first_overflow
    (root : Path) (fs : list FsEntry) (B : Z)
    (custom_extensions priority_files : option (list string)) :
  let g := generate_context_file root fs B custom_extensions priority_files in
  (exists rest,
      candidates g = selected_files g ++ rest /\
      fits B 0 (selected_files g) /\
      (rest = [] \/
       exists f rest',
         rest = f :: rest' /\ sum_tokens (selected_files g) + tokens f > B)) /\
  (forall f rest',
      candidates g = f :: rest' -> tokens f > B -> selected_files g = []).
Proof.
  intros g.
  destruct (generate_walk root fs B custom_extensions priority_files)
    as (post & Hc & _ & Hf & Hp).
  fold g in Hc, Hf, Hp. split.
  - exists post. auto.
  - intros f rest' E Hgt.
    destruct (selected_files g) as [|x sel]; [reflexivity|].
    rewrite E in Hc. simpl in Hc. injection Hc as <- _.
    simpl in Hf. lia.
Qed.

Lemma walk_stops_at_first_overflow_witness :
  selected_files
    (generate_context_file [] tree_big_main 1000 None (Some ["src/main.py"]))
  = [].
Proof.
  eapply (proj2 (walk_stops_at_first_overflow [] tree_big_main 1000 None
                   (Some ["src/main.py"]))).
  - vm_compute. reflexivity.
  - vm_compute. reflexivity.
Defined.

(** The scenario of the specification: with [src/main.py] pinned first at
    2000 tokens under a budget of 1000, the two small files behind it are
    candidates and nothing is selected. *)
Example priority_overflow_scenario :
  let g := generate_context_file [] tree_big_main 1000 None
             (Some ["src/main.py"]) in
  paths (candidates g) = ["src/main.py"; "src/x.js"; "README.md"] /\
  map tokens (candidates g) = [2000; 2; 5] /\
  selected_files g = [].
Proof. vm_compute. repeat split. Qed.

(** The other scenario: [a.py] at 10 tokens and [b.py] at 1000 under a
    budget of 500 select [a.py] only. *)
Example two_files_scenario :
  let g := generate_context_file [] tree_two_files 500 None None in
  paths (candidates g) = ["a.py"; "b.py"] /\
  paths (selected_files g) = ["a.py"] /\
  running_tokens g = 10.
Proof. vm_compute. repeat split. Qed.

(** C5.  A file whose own estimate exceeds the budget [B] is never among
    the selected files, wherever it stands; and a selected file is a whole
    candidate record, whose estimate and size are those of its full
    content. *)
Theorem oversized_file_never_selected
    (root : Path) (fs : list FsEntry) (B : Z)
    (custom_extensions priority_files : option (list string))
    (f : FileRecord) :
  let g := generate_context_file root fs B custom_extensions priority_files in
  (tokens f > B -> ~ In f (selected_files g)) /\
  (In f (selected_files g) ->
   In f (candidates g) /\
   tokens f = estimate_tokens (content f) /\
   size f = PyStr.len (content f)).
Proof.
  intros g. split.
  - intros Hgt Hin.
    destruct (in_split _ _ Hin) as (pre & post & E).
    destruct (generate_walk root fs B custom_extensions priority_files)
      as (rest & _ & _ & Hf & _).
    fold g in Hf.
    pose proof (fits_split B _ 0 pre f post Hf E) as Hle.
    pose proof (selected_tokens_nonneg root fs B custom_extensions
                  priority_files) as Hn.
    fold g in Hn. rewrite E in Hn. apply Forall_app in Hn.
    destruct Hn as [Hn _]. apply sum_tokens_nonneg in Hn. lia.
  - intros Hin.
    apply selected_In_candidates in Hin. split; [exact Hin|].
    apply candidates_In_scan, scan_In in Hin.
    destruct Hin as (e & _ & Hv). apply scan_visit_Some in Hv.
    destruct Hv as (_ & _ & _ & text & _ & ->). simpl. auto.
Qed.

Lemma oversized_file_never_selected_witness :
  In (mkFileRecord ["b.py"] ["b.py"] 80 1 20 (text 80))
    (candidates (generate_context_file [] tree_a_b 15 None None)) /\
  ~ In (mkFileRecord ["b.py"] ["b.py"] 80 1 20 (text 80))
      (selected_files (generate_context_file [] tree_a_b 15 None None)).
Proof.
  split.
  - vm_compute. auto.
  - apply (proj1 (oversized_file_never_selected [] tree_a_b 15 None None
                    (mkFileRecord ["b.py"] ["b.py"] 80 1 20 (text 80)))).
    reflexivity.
Defined.

(** C3, as amended.  The selected files are the selected priority files
    followed by the selected other files, so every selected priority file
    stands before every selected non-priority file; among themselves the
    priority files stand in the ascending [(estimatedTokens, relativePath)]
    order of the scan, whatever the order of the caller's list. *)
Theorem priority_files_first_in_scan_order
    (root : Path) (fs : list FsEntry) (B : Z)
    (custom_extensions priority_files : option (list string)) :
  let g := generate_context_file root fs B custom_extensions priority_files in
  exists sp so,
    selected_files g = sp ++ so /\
    Forall (fun f => in_priority priority_files f = true) sp /\
    Forall (fun f => in_priority priority_files f = false) so /\
    StronglySorted key_le sp.
Proof.
  intros g. subst g.
  destruct (generate_walk root fs B custom_extensions priority_files)
    as (post & Hc & _).
  rewrite generate_candidates, reorder_eq in Hc.
  unfold priority_data, other_data in Hc.
  destruct (prefix_of_partition _ _ _ _ Hc)
    as (sp & so & E & Hp & Ho & [t Ht] & _).
  exists sp, so. repeat split; try assumption.
  apply (sorted_app_l sp t). rewrite <- Ht.
  apply filter_sorted, scan_sorted.
Qed.

(** C3 as first stated fails: with the caller's list naming [b.py] before
    [a.py], the smaller [a.py] is still written first. *)
Lemma priority_order_not_callers :
  ~ in_caller_order ["b.py"; "a.py"]
      (selected_files
         (generate_context_file [] tree_a_b 500 None
            (Some ["b.py"; "a.py"]))).
Proof.
  intros H.
  assert (1 < 0)%nat as Habs; [|lia].
  eapply H; vm_compute; reflexivity.
Qed.

(** What that run selects. *)
Example priority_order_scenario :
  paths
    (selected_files
       (generate_context_file [] tree_a_b 500 None (Some ["b.py"; "a.py"])))
  = ["a.py"; "b.py"].
Proof. vm_compute. reflexivity. Qed.

(** C4.  The candidate order is the priority files followed by the others,
    and the others are in ascending order of the pair
    [(estimatedTokens, relativePath)]: each of them has a strictly smaller
    token estimate than every later one, or the same estimate and a path
    that is lexicographically not greater.  They are the non-priority
    records that the scanning loop appended, each as often as it was
    appended, and records with the same pair stand in the order in which
    the loop met them. *)
Theorem rest_sorted_by_tokens_then_path
    (root : Path) (fs : list FsEntry) (B : Z)
    (custom_extensions priority_files : option (list string)) :
  let g := generate_context_file root fs B custom_extensions priority_files in
  let files_data := fst (scan_codebase root fs B custom_extensions) in
  let rest := other_data priority_files files_data in
  let found := other_data priority_files (visited root custom_extensions fs) in
  candidates g = priority_data priority_files files_data ++ rest /\
  StronglySorted key_le rest /\
  Permutation found rest /\
  forall k, filter (same_key k) rest = filter (same_key k) found.
Proof.
  intros g files_data rest found. subst g files_data rest found.
  split; [|split; [|split]].
  - rewrite generate_candidates. apply reorder_eq.
  - apply filter_sorted, scan_sorted.
  - rewrite scan_codebase_eq. simpl. unfold other_data.
    apply filter_perm, sort_by_key_perm.
  - intros k. rewrite scan_codebase_eq. simpl. unfold other_data.
    now rewrite filter_comm, sort_by_key_stable, filter_comm.
Qed.

Lemma rest_sorted_by_tokens_then_path_witness :
  paths (other_data (Some ["main.py"])
           (fst (scan_codebase [] tree_ties 100 None)))
  = ["b.py"; "c/a.py"; "z.py"; "a.py"] /\
  StronglySorted key_le
    (other_data (Some ["main.py"])
       (fst (scan_codebase [] tree_ties 100 None))) /\
  Permutation
    (other_data (Some ["main.py"]) (visited [] None tree_ties))
    (other_data (Some ["main.py"])
       (fst (scan_codebase [] tree_ties 100 None))).
Proof.
  split; [vm_compute; reflexivity|].
  pose proof (rest_sorted_by_tokens_then_path [] tree_ties 100 None
                (Some ["main.py"])) as (_ & Hs & Hp & _).
  split; [exact Hs | exact Hp].
Defined.

(** Ties on the token estimate are broken by the path. *)
Example tie_break_scenario :
  paths
    (candidates
       (generate_context_file []
          [ file ["z.py"] 8; file ["b.py"] 8; file ["a.py"] 12;
            file ["c"; "a.py"] 8 ] 100 None None))
  = ["b.py"; "c/a.py"; "z.py"; "a.py"].
Proof. vm_compute. reflexivity. Qed.

(** C6.  The code lower-cases the suffix of the file but not the entries of
    a caller-supplied allow-list: with the list [.PY] neither [a.py] nor
    [a.PY] passes the filter, while under the default list [a.PY] does. *)
Theorem custom_extension_case_mismatch :
  should_include_file ["a.py"] (Some [".PY"]) = false /\
  should_include_file ["a.PY"] (Some [".PY"]) = false /\
  should_include_file ["a.PY"] (Some [".py"]) = true /\
  should_include_file ["a.PY"] None = true /\
  fst (scan_codebase [] [file ["a.py"] 40; file ["a.PY"] 40] 100
         (Some [".PY"])) = [].
Proof. vm_compute. repeat split. Qed.

(** C7.  A file whose full path has a whole segment equal to one of the
    skip-directory names fails the directory test and is never a
    candidate, whatever its extension. *)
Theorem skip_dir_segment_excludes
    (root : Path) (fs : list FsEntry) (B : Z)
    (custom_extensions : option (list string)) (rel : Path) (seg : string) :
  In seg (root ++ rel) -> In seg SKIP_DIRS ->
  in_skip_dir (root ++ rel) = true /\
  forall f,
    In f (fst (scan_codebase root fs B custom_extensions)) -> path f <> rel.
Proof.
  intros Hseg Hskip.
  assert (Hd : in_skip_dir (root ++ rel) = true)
    by (apply in_skip_dir_spec; eauto).
  split; [exact Hd|].
  intros f Hf E. apply scan_In in Hf. destruct Hf as (e & _ & Hv).
  apply scan_visit_Some in Hv.
  destruct Hv as (_ & Hn & _ & t & _ & ->). simpl in E. subst rel.
  congruence.
Qed.

Lemma skip_dir_segment_excludes_witness :
  in_skip_dir ([] ++ ["node_modules"; "x.js"]) = true /\
  ~ In ["node_modules"; "x.js"]
      (map path (fst (scan_codebase [] tree_node_modules 100000 None))).
Proof.
  destruct (skip_dir_segment_excludes [] tree_node_modules 100000 None
              ["node_modules"; "x.js"] "node_modules"
              (or_introl eq_refl) (or_introl eq_refl)) as [Hd Hn].
  split; [exact Hd|].
  intros H. apply in_map_iff in H. destruct H as (f & E & Hf).
  exact (Hn f Hf E).
Defined.

(** The scenario of the specification: [node_modules/x.js] is left out,
    [src/x.js] is a candidate, and so is [builder/x.js], whose directory
    name only contains a skip name. *)
Example node_modules_scenario :
  paths (fst (scan_codebase [] tree_node_modules 100000 None))
  = ["builder/x.js"; "src/x.js"].
Proof. vm_compute. reflexivity. Qed.

(** C8, as amended.  A file with an empty suffix whose base name is not
    in the skip-file set passes [should_include_file] under every
    allow-list, the default one or a caller-supplied one; it is a candidate
    when, in addition, no part of its full path is a skip-directory name
    and its content can be read. *)
Theorem extensionless_file_passes_filter
    (filepath : Path) (custom_extensions : option (list string)) :
  PyPath.suffix filepath = "" ->
  PyStr.mem (PyPath.name filepath) SKIP_FILES = false ->
  should_include_file filepath custom_extensions = true /\
  forall root fs B e t,
    filepath = root ++ entry_rel e ->
    In e fs -> entry_is_dir e = false ->
    in_skip_dir filepath = false -> entry_read e = Some t ->
    exists f,
      In f (fst (scan_codebase root fs B custom_extensions)) /\
      path f = entry_rel e.
Proof.
  intros Hs Hn.
  pose proof (should_include_extensionless _ custom_extensions Hs Hn) as Hi.
  split; [exact Hi|].
  intros root fs B e t -> He Hd Hk Hr.
  destruct (scan_visit_passes root custom_extensions e t Hd Hk Hi Hr)
    as (f & Hv & Hp).
  exists f. split; [|exact Hp]. apply scan_In. eauto.
Qed.

Lemma extensionless_file_passes_filter_witness :
  should_include_file ["Makefile"] (Some [".rs"]) = true /\
  exists f,
    In f (fst (scan_codebase [] tree_makefile 100 (Some [".rs"]))) /\
    path f = ["Makefile"].
Proof.
  destruct (extensionless_file_passes_filter ["Makefile"] (Some [".rs"])
              eq_refl eq_refl) as [Hi Hc].
  split; [exact Hi|].
  apply (Hc [] tree_makefile 100 (file ["Makefile"] 40) (text 40)).
  - reflexivity.
  - simpl. auto.
  - reflexivity.
  - reflexivity.
  - reflexivity.
Defined.

(** C8 as first stated fails: [node_modules/Makefile] has no extension
    and its base name is not in the skip-file set, yet the directory test
    keeps it out of the candidates. *)
Lemma extensionless_under_skip_dir_not_candidate :
  ~ extensionless_all_candidates [] tree_vendored 100 None.
Proof.
  intros H.
  specialize (H (file ["node_modules"; "Makefile"] 40)).
  assert (Hin : In ["node_modules"; "Makefile"]
                  (map path (fst (scan_codebase [] tree_vendored 100 None)))).
  { apply H; [simpl; auto | reflexivity | reflexivity | reflexivity]. }
  vm_compute in Hin. destruct Hin as [Hin | []]. discriminate Hin.
Qed.

(** What that scan returns. *)
Example vendored_makefile_scenario :
  paths (fst (scan_codebase [] tree_vendored 100 None)) = ["Makefile"].
Proof. vm_compute. reflexivity. Qed.

(** Under an allow-list that names no extension present in the tree, the
    extensionless files are the candidates. *)
Example makefile_scenario :
  paths (fst (scan_codebase [] tree_makefile 100 (Some [".rs"])))
  = ["Dockerfile"; "Makefile"].
Proof. vm_compute. reflexivity. Qed.

(** C9.  The selection is a function of the candidate records, the budget
    and the priority list.  Two runs whose scans return the same candidate
    list, under the same budget and priority list, produce the same
    candidate order, the same selected files in the same order and the same
    running total; and since the scan sorts on [(tokens, path)], it is
    enough that the two scans find the same set of records, each relative
    path once, in whatever order. *)
Theorem selection_deterministic
    (root1 root2 : Path) (fs1 fs2 : list FsEntry) (B : Z)
    (exts1 exts2 priority_files : option (list string)) :
  let c1 := fst (scan_codebase root1 fs1 B exts1) in
  let c2 := fst (scan_codebase root2 fs2 B exts2) in
  (c1 = c2 \/ (NoDup (paths c1) /\ Permutation c1 c2)) ->
  generate_context_file root1 fs1 B exts1 priority_files
  = generate_context_file root2 fs2 B exts2 priority_files.
Proof.
  intros c1 c2 H. apply generate_same_candidates.
  destruct H as [E | [N P]]; [exact E | now apply scan_unique].
Qed.

Lemma selection_deterministic_witness :
  generate_context_file [] tree_a_b 15 None (Some ["b.py"])
  = generate_context_file [] (rev tree_a_b) 15 None (Some ["b.py"]).
Proof.
  apply selection_deterministic. right. split.
  - vm_compute. repeat constructor; simpl; intuition discriminate.
  - vm_compute. apply Permutation_refl.
Defined.

(** In particular a run does not depend on the order in which the
    directory tree is traversed. *)
Corollary traversal_order_irrelevant
    (root : Path) (fs1 fs2 : list FsEntry) (B : Z)
    (custom_extensions priority_files : option (list string)) :
  NoDup (map (fun e => PyPath.str (entry_rel e)) fs1) ->
  Permutation fs1 fs2 ->
  scan_codebase root fs1 B custom_extensions
  = scan_codebase root fs2 B custom_extensions /\
  generate_context_file root fs1 B custom_extensions priority_files
  = generate_context_file root fs2 B custom_extensions priority_files.
Proof.
  intros N P.
  pose proof (scan_traversal_order root fs1 fs2 B custom_extensions N P) as E.
  split; [exact E|]. apply generate_same_candidates. now rewrite E.
Qed.

(** C10.  The directory test runs over the parts of the full path, those of
    the root included: when the root itself has a segment equal to one of
    the skip-directory names, every file below it is skipped and the scan
    returns no candidate and a total of 0 tokens. *)
Theorem root_under_skip_dir_scans_nothing
    (root : Path) (fs : list FsEntry) (max_tokens : Z)
    (custom_extensions : option (list string)) (seg : string) :
  In seg root -> In seg SKIP_DIRS ->
  scan_codebase root fs max_tokens custom_extensions = ([], 0).
Proof.
  intros Hr Hs. rewrite scan_codebase_eq.
  now rewrite (visited_skipped_root root custom_extensions fs seg Hr Hs).
Qed.

Lemma root_under_skip_dir_scans_nothing_witness :
  scan_codebase ["/"; "home"; "build"; "proj"] tree_two_files 100000 None
  = ([], 0).
Proof.
  apply (root_under_skip_dir_scans_nothing _ _ _ _ "build").
  - simpl. auto.
  - simpl. auto 20.
Defined.


(** * Further properties of the code *)

(** ** The metadata extractor *)

Section Extractor.

Lemma count_newlines_bounds s :
  0 <= PyStr.count_newlines s <= PyStr.len s.
Proof.
  unfold PyStr.len. induction s as [|c s IH]; simpl String.length; simpl.
  - lia.
  - destruct (Ascii.eqb c "010"%char); lia.
Qed.

Lemma estimate_tokens_bounds t :
  4 * estimate_tokens t <= PyStr.len t < 4 * estimate_tokens t + 4.
Proof.
  unfold estimate_tokens.
  pose proof (Z.div_mod (PyStr.len t) 4 ltac:(lia)) as E.
  pose proof (Z.mod_pos_bound (PyStr.len t) 4 ltac:(lia)) as M.
  lia.
Qed.

End Extractor.

(** [get_file_info] fails exactly when the read fails.  When it succeeds the
    dictionary holds the content as read, its length as the size, a line
    count between 1 and the size plus 1 (an empty file has one line), and a
    token estimate [t] with [4 t <= size < 4 t + 4]. *)
Theorem get_file_info_figures (read : option string) :
  (get_file_info read = None <-> read = None) /\
  forall info,
    get_file_info read = Some info ->
    read = Some (info_content info) /\
    info_size info = PyStr.len (info_content info) /\
    info_lines info = PyStr.count_newlines (info_content info) + 1 /\
    1 <= info_lines info <= info_size info + 1 /\
    4 * info_tokens info <= info_size info < 4 * info_tokens info + 4.
Proof.
  split.
  - destruct read; simpl; split; congruence.
  - intros info H. destruct read as [t|]; simpl in H; [|discriminate].
    injection H as <-.
    cbn [info_size info_lines info_tokens info_content].
    pose proof (count_newlines_bounds t). pose proof (estimate_tokens_bounds t).
    repeat split; try reflexivity; lia.
Qed.

Lemma get_file_info_figures_witness :
  info_lines (mkFileInfo 3 2 0 (String "a" (String "010" (String "b" ""))))
  = 2 /\
  4 * 0 <= 3 < 4 * 0 + 4.
Proof.
  destruct (proj2 (get_file_info_figures
                     (Some (String "a" (String "010" (String "b" "")))))
              (mkFileInfo 3 2 0 (String "a" (String "010" (String "b" ""))))
              eq_refl) as (_ & _ & Hl & _ & Ht).
  split; [exact Hl | exact Ht].
Defined.

(** ** The walker *)

Section Walker.

Lemma sort_insert_map (h : FileRecord -> FileRecord) x l :
  (forall y, sort_key (h y) = sort_key y) ->
  sort_insert (h x) (map h l) = map h (sort_insert x l).
Proof.
  intros K. induction l as [|y l IH]; simpl; [reflexivity|].
  rewrite !K. destruct (key_ltb (sort_key y) (sort_key x)); simpl;
    [now rewrite IH | reflexivity].
Qed.

(** Sorting commutes with a change of the records that leaves the keys
    alone. *)
Lemma sort_by_key_map (h : FileRecord -> FileRecord) l :
  (forall y, sort_key (h y) = sort_key y) ->
  sort_by_key (map h l) = map h (sort_by_key l).
Proof.
  intros K. induction l as [|x l IH]; simpl; [reflexivity|].
  now rewrite IH, sort_insert_map.
Qed.

Lemma in_skip_dir_app p q :
  in_skip_dir (p ++ q) = in_skip_dir p || in_skip_dir q.
Proof.
  apply eq_true_iff_eq. rewrite orb_true_iff, !in_skip_dir_spec. split.
  - intros (seg & Hin & Hs). apply in_app_or in Hin.
    destruct Hin; [left | right]; eauto.
  - intros [(seg & Hin & Hs) | (seg & Hin & Hs)]; exists seg;
      (split; [apply in_or_app; auto | exact Hs]).
Qed.

Lemma name_app root rel :
  rel <> [] -> PyPath.name (root ++ rel) = PyPath.name rel.
Proof.
  intros H. unfold PyPath.name.
  induction root as [|x root IH]; simpl; [reflexivity|].
  rewrite IH. destruct (root ++ rel) eqn:E; [|reflexivity].
  apply app_eq_nil in E. tauto.
Qed.

Lemma should_include_file_app root rel exts :
  rel <> [] ->
  should_include_file (root ++ rel) exts = should_include_file rel exts.
Proof.
  intros H. unfold should_include_file, PyPath.suffix.
  now rewrite (name_app root rel H).
Qed.

Lemma scan_visit_rebase root1 root2 exts e :
  in_skip_dir root1 = false -> in_skip_dir root2 = false ->
  entry_rel e <> [] ->
  scan_visit root2 exts e = option_map (rebase root2) (scan_visit root1 exts e).
Proof.
  intros H1 H2 Hr. unfold scan_visit.
  rewrite !in_skip_dir_app, H1, H2, !should_include_file_app by exact Hr.
  simpl. destruct (entry_is_dir e); [reflexivity|].
  destruct (in_skip_dir (entry_rel e)); [reflexivity|].
  destruct (should_include_file (entry_rel e) exts); simpl; [|reflexivity].
  now destruct (get_file_info (entry_read e)).
Qed.

Lemma visited_rebase root1 root2 exts fs :
  in_skip_dir root1 = false -> in_skip_dir root2 = false ->
  Forall (fun e => entry_rel e <> []) fs ->
  visited root2 exts fs = map (rebase root2) (visited root1 exts fs).
Proof.
  intros H1 H2 F. unfold visited.
  induction F as [|e fs He F IH]; simpl; [reflexivity|].
  rewrite map_app, <- IH, (scan_visit_rebase root1 root2 exts e H1 H2 He).
  now destruct (scan_visit root1 exts e).
Qed.

Lemma sum_tokens_map_rebase root l :
  sum_tokens (map (rebase root) l) = sum_tokens l.
Proof. induction l as [|x l IH]; simpl; [reflexivity | now rewrite IH]. Qed.

End Walker.

(** The total returned by [scan_codebase] is the sum of the token estimates
    of the records it returns: the sort loses no record and adds none. *)
Theorem scan_total_is_sum
    (root : Path) (fs : list FsEntry) (max_tokens : Z)
    (custom_extensions : option (list string)) :
  snd (scan_codebase root fs max_tokens custom_extensions)
  = sum_tokens (fst (scan_codebase root fs max_tokens custom_extensions)).
Proof.
  rewrite scan_codebase_eq. simpl.
  apply sum_tokens_perm, sort_by_key_perm.
Qed.

(** The records returned by [scan_codebase] are exactly those built from
    the entries that are not directories, have no skip-directory name
    among the parts of their full path, pass [should_include_file] and can
    be read; each carries the relative path, the full path, and the figures
    [get_file_info] computes from the content. *)
Theorem scan_candidate_iff
    (root : Path) (fs : list FsEntry) (max_tokens : Z)
    (custom_extensions : option (list string)) (f : FileRecord) :
  In f (fst (scan_codebase root fs max_tokens custom_extensions)) <->
  exists e t,
    In e fs /\
    entry_is_dir e = false /\
    in_skip_dir (root ++ entry_rel e) = false /\
    should_include_file (root ++ entry_rel e) custom_extensions = true /\
    entry_read e = Some t /\
    f = mkFileRecord (entry_rel e) (root ++ entry_rel e) (PyStr.len t)
          (PyStr.count_newlines t + 1) (estimate_tokens t) t.
Proof.
  rewrite scan_In. split.
  - intros (e & He & Hv). apply scan_visit_Some in Hv.
    destruct Hv as (Hd & Hs & Hi & t & Hr & ->). exists e, t. auto 10.
  - intros (e & t & He & Hd & Hs & Hi & Hr & ->). exists e.
    split; [exact He|]. unfold scan_visit. now rewrite Hd, Hs, Hi, Hr.
Qed.

(** A file whose base name is in the skip-file set is never a candidate,
    whatever the allow-list, even one that names its extension. *)
Theorem skip_file_never_candidate
    (root : Path) (fs : list FsEntry) (max_tokens : Z)
    (custom_extensions : option (list string)) (rel : Path) :
  PyStr.mem (PyPath.name (root ++ rel)) SKIP_FILES = true ->
  should_include_file (root ++ rel) custom_extensions = false /\
  forall f,
    In f (fst (scan_codebase root fs max_tokens custom_extensions)) ->
    path f <> rel.
Proof.
  intros Hn.
  assert (Hi : should_include_file (root ++ rel) custom_extensions = false)
    by (unfold should_include_file; now rewrite Hn).
  split; [exact Hi|].
  intros f Hf E. apply scan_In in Hf. destruct Hf as (e & _ & Hv).
  apply scan_visit_Some in Hv. destruct Hv as (_ & _ & Hi' & t & _ & ->).
  simpl in E. subst rel. congruence.
Qed.

Lemma skip_file_never_candidate_witness :
  should_include_file ([] ++ ["package-lock.json"]) (Some [".json"]) = false /\
  ~ In ["package-lock.json"]
      (map path (fst (scan_codebase [] tree_lockfile 1000 (Some [".json"])))).
Proof.
  destruct (skip_file_never_candidate [] tree_lockfile 1000 (Some [".json"])
              ["package-lock.json"] eq_refl) as [Hi Hn].
  split; [exact Hi|].
  intros H. apply in_map_iff in H. destruct H as (f & E & Hf).
  exact (Hn f Hf E).
Defined.

(** The scan does not depend on where the root lies: through two root
    paths without a skip-directory name among their parts, the same
    entries give the same records in the same order, up to the full path,
    and the same total. *)
Theorem scan_root_independent
    (root1 root2 : Path) (fs : list FsEntry) (max_tokens : Z)
    (custom_extensions : option (list string)) :
  in_skip_dir root1 = false -> in_skip_dir root2 = false ->
  Forall (fun e => entry_rel e <> []) fs ->
  fst (scan_codebase root2 fs max_tokens custom_extensions)
  = map (rebase root2)
      (fst (scan_codebase root1 fs max_tokens custom_extensions)) /\
  snd (scan_codebase root2 fs max_tokens custom_extensions)
  = snd (scan_codebase root1 fs max_tokens custom_extensions).
Proof.
  intros H1 H2 F. rewrite !scan_codebase_eq. simpl.
  rewrite (visited_rebase root1 root2 custom_extensions fs H1 H2 F).
  split; [now apply sort_by_key_map | apply sum_tokens_map_rebase].
Qed.

Lemma scan_root_independent_witness :
  paths (fst (scan_codebase ["/"; "home"; "proj"] tree_a_b 100 None))
  = paths (fst (scan_codebase [] tree_a_b 100 None)) /\
  snd (scan_codebase ["/"; "home"; "proj"] tree_a_b 100 None)
  = snd (scan_codebase [] tree_a_b 100 None).
Proof.
  destruct (scan_root_independent [] ["/"; "home"; "proj"] tree_a_b 100 None
              eq_refl eq_refl) as [Hf Ht].
  - repeat constructor; discriminate.
  - split; [|exact Ht]. rewrite Hf. unfold paths. rewrite map_map.
    reflexivity.
Defined.

(** ** The file filter *)

Section FilterCase.

Lemma lower_length s : String.length (PyStr.lower s) = String.length s.
Proof. induction s as [|c s IH]; simpl; congruence. Qed.

Lemma lower_empty s : PyStr.lower s = "" <-> s = "".
Proof.
  split; [|now intros ->].
  intros H. pose proof (lower_length s) as L. rewrite H in L.
  destruct s; [reflexivity | discriminate].
Qed.

Lemma should_include_file_eq filepath exts :
  should_include_file filepath exts =
  if PyStr.mem (PyPath.name filepath) SKIP_FILES then false
  else PyStr.mem (PyStr.lower (PyPath.suffix filepath))
         (active_extensions exts)
       || String.eqb (PyPath.suffix filepath) "".
Proof. reflexivity. Qed.

Lemma code_extensions_lower :
  Forall (fun e => PyStr.lower e = e) CODE_EXTENSIONS.
Proof. repeat constructor. Qed.

End FilterCase.

(** The lower-case form of each of the 256 characters, by code point, as
    [chr(n).lower()] gives it. *)
Example lower_char_table :
  map (fun n => nat_of_ascii (PyStr.lower_char (ascii_of_nat n))) (seq 0 256)
  = [ 0; 1; 2; 3; 4; 5; 6; 7; 8; 9; 10; 11;
      12; 13; 14; 15; 16; 17; 18; 19; 20; 21; 22; 23;
      24; 25; 26; 27; 28; 29; 30; 31; 32; 33; 34; 35;
      36; 37; 38; 39; 40; 41; 42; 43; 44; 45; 46; 47;
      48; 49; 50; 51; 52; 53; 54; 55; 56; 57; 58; 59;
      60; 61; 62; 63; 64; 97; 98; 99; 100; 101; 102; 103;
      104; 105; 106; 107; 108; 109; 110; 111; 112; 113; 114; 115;
      116; 117; 118; 119; 120; 121; 122; 91; 92; 93; 94; 95;
      96; 97; 98; 99; 100; 101; 102; 103; 104; 105; 106; 107;
      108; 109; 110; 111; 112; 113; 114; 115; 116; 117; 118; 119;
      120; 121; 122; 123; 124; 125; 126; 127; 128; 129; 130; 131;
      132; 133; 134; 135; 136; 137; 138; 139; 140; 141; 142; 143;
      144; 145; 146; 147; 148; 149; 150; 151; 152; 153; 154; 155;
      156; 157; 158; 159; 160; 161; 162; 163; 164; 165; 166; 167;
      168; 169; 170; 171; 172; 173; 174; 175; 176; 177; 178; 179;
      180; 181; 182; 183; 184; 185; 186; 187; 188; 189; 190; 191;
      224; 225; 226; 227; 228; 229; 230; 231; 232; 233; 234; 235;
      236; 237; 238; 239; 240; 241; 242; 243; 244; 245; 246; 215;
      248; 249; 250; 251; 252; 253; 254; 223; 224; 225; 226; 227;
      228; 229; 230; 231; 232; 233; 234; 235; 236; 237; 238; 239;
      240; 241; 242; 243; 244; 245; 246; 247; 248; 249; 250; 251;
      252; 253; 254; 255 ]%nat.
Proof. vm_compute. reflexivity. Qed.

(** The filter looks at the suffix of a file through [suffix.lower()]
    only: two files outside the skip-file set whose suffixes have the same
    lower-case form, as [A.PY] and [b.py] or [a.É] and [a.é] have, get the
    same answer under every allow-list. *)
Theorem suffix_case_irrelevant
    (p q : Path) (custom_extensions : option (list string)) :
  PyStr.mem (PyPath.name p) SKIP_FILES = false ->
  PyStr.mem (PyPath.name q) SKIP_FILES = false ->
  PyStr.lower (PyPath.suffix p) = PyStr.lower (PyPath.suffix q) ->
  should_include_file p custom_extensions
  = should_include_file q custom_extensions.
Proof.
  intros Hp Hq E. rewrite !should_include_file_eq, Hp, Hq, E. f_equal.
  apply eq_true_iff_eq. rewrite !String.eqb_eq.
  rewrite <- (lower_empty (PyPath.suffix p)), <- (lower_empty (PyPath.suffix q)).
  now rewrite E.
Qed.

Lemma suffix_case_irrelevant_witness :
  should_include_file ["src"; "a.PY"] (Some [".py"; ".js"])
  = should_include_file ["lib"; "b.Py"] (Some [".py"; ".js"]) /\
  should_include_file [name_upper_e] (Some [ext_upper_e])
  = should_include_file [name_lower_e] (Some [ext_upper_e]).
Proof.
  split; apply suffix_case_irrelevant; reflexivity.
Defined.

(** Against an allow-list entry that is its own lower-case form the match
    is case-insensitive: a file outside the skip-file set whose suffix has
    the lower-case form of the entry is included.  Every entry of the
    default allow-list is its own lower-case form, so under the default
    list this holds for each entry; a caller's entry with a capital letter,
    [.PY] or [.É], is not, and matches no file. *)
Theorem lower_case_entry_matches_any_case
    (p : Path) (custom_extensions : option (list string)) (e : string) :
  PyStr.mem (PyPath.name p) SKIP_FILES = false ->
  In e (active_extensions custom_extensions) ->
  truthy custom_extensions = false \/ PyStr.lower e = e ->
  PyStr.lower (PyPath.suffix p) = PyStr.lower e ->
  should_include_file p custom_extensions = true.
Proof.
  intros Hn He Hl E. rewrite should_include_file_eq, Hn.
  apply orb_true_iff. left. apply mem_In. rewrite E.
  assert (L : PyStr.lower e = e).
  { destruct Hl as [Ht | Hl]; [|exact Hl].
    pose proof code_extensions_lower as F. rewrite Forall_forall in F.
    apply F. destruct custom_extensions as [[|x xs]|]; simpl in *;
      try discriminate; exact He. }
  now rewrite L.
Qed.

Lemma lower_case_entry_matches_any_case_witness :
  should_include_file ["README.MD"] None = true /\
  should_include_file ["Main.RS"] (Some [".rs"]) = true /\
  should_include_file [name_upper_e] (Some [ext_lower_e]) = true.
Proof.
  split; [|split].
  - apply (lower_case_entry_matches_any_case ["README.MD"] None ".md").
    + reflexivity.
    + apply mem_In. reflexivity.
    + now left.
    + reflexivity.
  - apply (lower_case_entry_matches_any_case ["Main.RS"] (Some [".rs"]) ".rs").
    + reflexivity.
    + apply mem_In. reflexivity.
    + now right.
    + reflexivity.
  - apply (lower_case_entry_matches_any_case [name_upper_e]
             (Some [ext_lower_e]) ext_lower_e).
    + reflexivity.
    + apply mem_In. reflexivity.
    + now right.
    + reflexivity.
Defined.

(** An entry with an accented capital is handled like one with an ASCII
    capital: [.É] is not its own lower-case form, and with it as the
    allow-list neither [a.É] nor [a.é] is included. *)
Example accented_capital_entry_scenario :
  PyStr.lower ext_upper_e = ext_lower_e /\
  should_include_file [name_upper_e] (Some [ext_upper_e]) = false /\
  should_include_file [name_lower_e] (Some [ext_upper_e]) = false /\
  should_include_file [name_upper_e] (Some [ext_lower_e]) = true.
Proof. vm_compute. repeat split. Qed.

(** ** The selector *)

Section Budget.

Lemma fits_mono B B' l :
  B <= B' -> forall run, fits B run l -> fits B' run l.
Proof.
  intros HB. induction l as [|x l IH]; simpl; intros run H; [exact I|].
  destruct H as [Hx Hl]. split; [lia | now apply IH].
Qed.

Lemma fits_of_sum B l :
  Forall (fun f => 0 <= tokens f) l ->
  forall run, run + sum_tokens l <= B -> fits B run l.
Proof.
  induction 1 as [|x l Hx Hl IH]; simpl; intros run H; [exact I|].
  pose proof (sum_tokens_nonneg l Hl). split; [lia|]. apply IH. lia.
Qed.

(** The walk passes over a stretch of files that fits without stopping. *)
Lemma walk_app_fit B pre :
  forall post sel run,
    fits B run pre ->
    walk B (pre ++ post) sel run
    = walk B post (sel ++ pre) (run + sum_tokens pre).
Proof.
  induction pre as [|x pre IH]; simpl; intros post sel run H.
  - now rewrite app_nil_r, Z.add_0_r.
  - destruct H as [Hx Hl].
    destruct (Z.gtb_spec (run + tokens x) B) as [Hgt | _]; [lia|].
    rewrite (IH post _ _ Hl), <- app_assoc. simpl. f_equal. lia.
Qed.

Lemma walk_prefix B files sel run :
  exists pre, fst (walk B files sel run) = sel ++ pre.
Proof.
  destruct (walk_spec B files sel run) as (pre & post & _ & -> & _).
  now exists pre.
Qed.

Lemma reorder_perm prio l : Permutation l (reorder prio l).
Proof.
  rewrite reorder_eq. unfold priority_data, other_data.
  induction l as [|x l IH]; simpl; [constructor|].
  destruct (in_priority prio x); simpl.
  - now constructor.
  - eapply perm_trans; [apply perm_skip, IH | apply Permutation_middle].
Qed.

Lemma reorder_unmatched prio l :
  Forall (fun f => in_priority prio f = false) l -> reorder prio l = l.
Proof.
  intros F. rewrite reorder_eq. unfold priority_data, other_data.
  assert (E1 : filter (in_priority prio) l = []).
  { induction F as [|x l Hx F IH]; simpl; [reflexivity|]. now rewrite Hx. }
  assert (E2 : filter (fun f => negb (in_priority prio f)) l = l).
  { induction F as [|x l Hx F IH]; simpl; [reflexivity|].
    rewrite Hx. simpl. f_equal. apply IH.
    simpl in E1. now rewrite Hx in E1. }
  now rewrite E1, E2.
Qed.

Lemma generate_selected root fs B exts prio :
  selected_files (generate_context_file root fs B exts prio)
  = fst (walk B (reorder prio (fst (scan_codebase root fs B exts))) [] 0).
Proof. now rewrite generate_of_scan. Qed.

Lemma scan_budget_irrelevant root fs B B' exts :
  scan_codebase root fs B exts = scan_codebase root fs B' exts.
Proof. now rewrite !scan_codebase_eq. Qed.

Lemma candidates_tokens_nonneg root fs B exts prio :
  Forall (fun f => 0 <= tokens f)
    (candidates (generate_context_file root fs B exts prio)).
Proof.
  apply Forall_forall. intros f Hf. apply candidates_In_scan in Hf.
  pose proof (scan_tokens_nonneg root exts fs B) as Hn.
  rewrite Forall_forall in Hn. now apply Hn.
Qed.

Lemma candidates_sum root fs B exts prio :
  sum_tokens (candidates (generate_context_file root fs B exts prio))
  = snd (scan_codebase root fs B exts).
Proof.
  rewrite generate_candidates.
  rewrite <- (sum_tokens_perm _ _ (reorder_perm prio _)).
  rewrite scan_codebase_eq. simpl.
  symmetry. apply sum_tokens_perm, sort_by_key_perm.
Qed.

(** Everything is selected exactly when there is nothing to select or the
    sum over the candidates is within the budget. *)
Lemma all_selected_iff root fs B exts prio :
  selected_files (generate_context_file root fs B exts prio)
  = candidates (generate_context_file root fs B exts prio) <->
  candidates (generate_context_file root fs B exts prio) = [] \/
  sum_tokens (candidates (generate_context_file root fs B exts prio)) <= B.
Proof.
  destruct (generate_walk root fs B exts prio) as (post & Hc & _ & Hf & _).
  split.
  - intros E. rewrite E in Hf.
    destruct (candidates (generate_context_file root fs B exts prio))
      as [|x l]; [now left | right].
    simpl in Hf. destruct Hf as [Hx Hl].
    pose proof (fits_total B l _ Hl Hx). simpl. lia.
  - intros [E | Hs].
    + rewrite E in Hc. symmetry in Hc. apply app_eq_nil in Hc.
      rewrite E. tauto.
    + pose proof (candidates_tokens_nonneg root fs B exts prio) as Hn.
      pose proof (fits_of_sum B _ Hn 0 ltac:(lia)) as Hfit.
      rewrite generate_selected, <- generate_candidates.
      rewrite <- (app_nil_r (candidates _)) at 1.
      rewrite (walk_app_fit B _ [] [] 0 Hfit). simpl. reflexivity.
Qed.

End Budget.

Lemma candidates_nil_iff root fs B exts prio :
  candidates (generate_context_file root fs B exts prio) = [] <->
  fst (scan_codebase root fs B exts) = [].
Proof.
  rewrite generate_candidates.
  pose proof (reorder_perm prio (fst (scan_codebase root fs B exts))) as P.
  split; intros E.
  - rewrite E in P. now apply Permutation_sym, Permutation_nil in P.
  - rewrite E in P |- *. now apply Permutation_nil in P.
Qed.

Lemma priority_partition_length root fs B exts prio :
  Permutation (fst (scan_codebase root fs B exts))
    (candidates (generate_context_file root fs B exts prio)) /\
  List.length (candidates (generate_context_file root fs B exts prio))
  = List.length (fst (scan_codebase root fs B exts)).
Proof.
  rewrite generate_candidates.
  pose proof (reorder_perm prio (fst (scan_codebase root fs B exts))) as P.
  split; [exact P | symmetry; apply Permutation_length; exact P].
Qed.

(** The priority partition only reorders: the candidate order holds every
    record of the scan exactly as often as the scan returned it, whatever
    the priority list (with repeated names, or names of no file). *)
Theorem priority_partition_keeps_every_file
    (root : Path) (fs : list FsEntry) (B : Z)
    (custom_extensions priority_files : option (list string)) :
  let g := generate_context_file root fs B custom_extensions priority_files in
  Permutation (fst (scan_codebase root fs B custom_extensions)) (candidates g)
  /\ List.length (candidates g)
     = List.length (fst (scan_codebase root fs B custom_extensions)).
Proof.
  intros g. subst g. apply priority_partition_length.
Qed.

(** Names in the priority list that are the relative path of no candidate
    are ignored: when none of them matches, the run is the run without a
    priority list. *)
Theorem unmatched_priority_ignored
    (root : Path) (fs : list FsEntry) (B : Z)
    (custom_extensions : option (list string)) (ps : list string) :
  (forall p,
      In p ps ->
      ~ In p (paths (fst (scan_codebase root fs B custom_extensions)))) ->
  generate_context_file root fs B custom_extensions (Some ps)
  = generate_context_file root fs B custom_extensions None.
Proof.
  intros H. rewrite !generate_of_scan. simpl.
  rewrite (reorder_unmatched (Some ps)), (reorder_unmatched None);
    [reflexivity | |].
  - apply Forall_forall. reflexivity.
  - apply Forall_forall. intros f Hf. simpl.
    destruct (PyStr.mem (PyPath.str (path f)) ps) eqn:E; [|reflexivity].
    apply mem_In in E. exfalso. apply (H _ E).
    unfold paths. apply in_map_iff. exists f. auto.
Qed.

Lemma unmatched_priority_ignored_witness :
  generate_context_file [] tree_a_b 15 None (Some ["c.py"; "src/a.py"])
  = generate_context_file [] tree_a_b 15 None None.
Proof.
  apply unmatched_priority_ignored.
  intros p Hp Hin. vm_compute in Hin.
  destruct Hp as [<- | [<- | []]]; destruct Hin as [H | [H | []]];
    discriminate H.
Defined.

(** The closing warning about excluded files is printed exactly when the
    scan found at least one candidate and the total token count it
    returned exceeds the budget; the number it prints is then positive,
    and is 0 in every other run. *)
Theorem limit_reported_iff_total_exceeds
    (root : Path) (fs : list FsEntry) (B : Z)
    (custom_extensions priority_files : option (list string)) :
  let g := generate_context_file root fs B custom_extensions priority_files in
  let scan := scan_codebase root fs B custom_extensions in
  (limit_reported g = true <-> fst scan <> [] /\ B < snd scan) /\
  (limit_reported g = true <-> 0 < excluded_count g) /\
  (limit_reported g = false <-> selected_files g = candidates g) /\
  0 <= excluded_count g.
Proof.
  intros g scan.
  destruct (generate_walk root fs B custom_extensions priority_files)
    as (post & Hc & _).
  fold g in Hc.
  assert (Hlen : List.length (candidates g)
                 = (List.length (selected_files g) + List.length post)%nat)
    by (rewrite Hc at 1; apply length_app).
  assert (Hall : limit_reported g = false <-> selected_files g = candidates g).
  { unfold limit_reported. rewrite Nat.ltb_ge. split.
    - intros Hle. assert (post = []) as ->
        by (destruct post; [reflexivity | simpl in Hlen; lia]).
      now rewrite app_nil_r in Hc.
    - intros E. rewrite E. lia. }
  assert (Hex : limit_reported g = true <-> 0 < excluded_count g).
  { unfold limit_reported, excluded_count. rewrite Nat.ltb_lt. lia. }
  split; [|split; [exact Hex | split; [exact Hall|]]].
  - pose proof (all_selected_iff root fs B custom_extensions priority_files)
      as A. fold g in A.
    pose proof (candidates_sum root fs B custom_extensions priority_files)
      as S. fold g scan in S. rewrite S in A.
    assert (N : candidates g = [] <-> fst scan = []).
    { apply candidates_nil_iff. }
    destruct (limit_reported g) eqn:L.
    + split; [intros _ | reflexivity].
      assert (NA : selected_files g <> candidates g)
        by (intros E; apply Hall in E; discriminate).
      split.
      * intros E. apply NA, A. left. now apply N.
      * destruct (Z.lt_ge_cases B (snd scan)) as [Hlt | Hge]; [exact Hlt|].
        exfalso. apply NA, A. right. lia.
    + split; [discriminate|]. intros [Hne Hlt].
      assert (E : selected_files g = candidates g) by now apply Hall.
      apply A in E. destruct E as [E | E]; [|lia].
      exfalso. apply Hne. now apply N.
  - unfold excluded_count. lia.
Qed.

(** Raising the budget never drops a file: the selection under a budget is
    a prefix of the selection under any larger budget. *)
Theorem larger_budget_extends_selection
    (root : Path) (fs : list FsEntry) (B B' : Z)
    (custom_extensions priority_files : option (list string)) :
  B <= B' ->
  exists more,
    selected_files
      (generate_context_file root fs B' custom_extensions priority_files)
    = selected_files
        (generate_context_file root fs B custom_extensions priority_files)
      ++ more.
Proof.
  intros HB.
  destruct (generate_walk root fs B custom_extensions priority_files)
    as (post & Hc & _ & Hf & _).
  rewrite generate_candidates in Hc.
  rewrite (generate_selected root fs B').
  rewrite (scan_budget_irrelevant root fs B' B), Hc.
  rewrite (walk_app_fit B' _ post [] 0 (fits_mono B B' _ HB 0 Hf)).
  simpl. apply walk_prefix.
Qed.

Lemma larger_budget_extends_selection_witness :
  exists more,
    selected_files (generate_context_file [] tree_a_b 30 None None)
    = selected_files (generate_context_file [] tree_a_b 15 None None) ++ more.
Proof.
  apply larger_budget_extends_selection. lia.
Defined.

(** The running total written to the header lies between 0 and the total
    token count of the scan. *)
Theorem running_tokens_bounds
    (root : Path) (fs : list FsEntry) (B : Z)
    (custom_extensions priority_files : option (list string)) :
  let g := generate_context_file root fs B custom_extensions priority_files in
  0 <= running_tokens g <= snd (scan_codebase root fs B custom_extensions).
Proof.
  intros g.
  destruct (generate_walk root fs B custom_extensions priority_files)
    as (post & Hc & Hr & _).
  fold g in Hc, Hr.
  pose proof (candidates_sum root fs B custom_extensions priority_files) as S.
  pose proof (candidates_tokens_nonneg root fs B custom_extensions
                priority_files) as N.
  fold g in S, N. rewrite Hc in S, N. rewrite sum_tokens_app in S.
  apply Forall_app in N. destruct N as [N1 N2].
  apply sum_tokens_nonneg in N1, N2. lia.
Qed.

(** When the priority files together fit the budget, all of them are
    selected, ahead of the others. *)
Theorem priority_files_selected_when_they_fit
    (root : Path) (fs : list FsEntry) (B : Z)
    (custom_extensions priority_files : option (list string)) :
  let files_data := fst (scan_codebase root fs B custom_extensions) in
  sum_tokens (priority_data priority_files files_data) <= B ->
  exists others,
    selected_files
      (generate_context_file root fs B custom_extensions priority_files)
    = priority_data priority_files files_data ++ others.
Proof.
  intros files_data Hs. subst files_data.
  rewrite generate_selected, reorder_eq.
  assert (N : Forall (fun f => 0 <= tokens f)
                (priority_data priority_files
                   (fst (scan_codebase root fs B custom_extensions)))).
  { apply Forall_forall. intros f Hf. apply filter_In in Hf.
    pose proof (scan_tokens_nonneg root custom_extensions fs B) as Hn.
    rewrite Forall_forall in Hn. now apply Hn. }
  rewrite (walk_app_fit B _ _ [] 0 (fits_of_sum B _ N 0 ltac:(lia))).
  simpl. apply walk_prefix.
Qed.

Lemma priority_files_selected_when_they_fit_witness :
  exists others,
    selected_files
      (generate_context_file [] tree_a_b 25 None (Some ["b.py"]))
    = priority_data (Some ["b.py"]) (fst (scan_codebase [] tree_a_b 25 None))
      ++ others.
Proof.
  apply priority_files_selected_when_they_fit. vm_compute. discriminate.
Defined.

(** Under a negative budget nothing is selected, the running total is 0
    and every candidate counts as excluded. *)
Theorem negative_budget_selects_nothing
    (root : Path) (fs : list FsEntry) (B : Z)
    (custom_extensions priority_files : option (list string)) :
  B < 0 ->
  let g := generate_context_file root fs B custom_extensions priority_files in
  selected_files g = [] /\
  running_tokens g = 0 /\
  excluded_count g
  = Z.of_nat (List.length (fst (scan_codebase root fs B custom_extensions))).
Proof.
  intros HB g.
  destruct (generate_walk root fs B custom_extensions priority_files)
    as (post & Hc & Hr & Hf & _).
  fold g in Hc, Hr, Hf.
  pose proof (selected_tokens_nonneg root fs B custom_extensions
                priority_files) as N.
  fold g in N.
  assert (E : selected_files g = []).
  { destruct (selected_files g) as [|x l]; [reflexivity|].
    inversion N; subst. simpl in Hf. lia. }
  split; [exact E|]. split; [now rewrite Hr, E|].
  unfold excluded_count. rewrite E. simpl.
  pose proof (proj2 (priority_partition_length root fs B custom_extensions
                       priority_files)) as L.
  fold g in L. lia.
Qed.

Lemma negative_budget_selects_nothing_witness :
  selected_files (generate_context_file [] tree_a_b (-1) None None) = [] /\
  excluded_count (generate_context_file [] tree_a_b (-1) None None) = 2.
Proof.
  destruct (negative_budget_selects_nothing [] tree_a_b (-1) None None
              eq_refl) as (E & _ & X).
  split; [exact E | exact X].
Defined.

(** ** Dictionaries *)

Section Dict.

Context {V : Type}.

Lemma dict_get_set_eq k (v : V) d : PyDict.get k (PyDict.set k v d) = Some v.
Proof.
  induction d as [|[k' v'] d IH]; simpl.
  - now rewrite String.eqb_refl.
  - destruct (String.eqb k k') eqn:E; simpl; rewrite ?E.
    + now rewrite String.eqb_refl.
    + exact IH.
Qed.

Lemma dict_get_set_neq k k' (v : V) d :
  k <> k' -> PyDict.get k' (PyDict.set k v d) = PyDict.get k' d.
Proof.
  intros N. assert (N' : String.eqb k' k = false)
    by (apply String.eqb_neq; congruence).
  induction d as [|[k0 v0] d IH]; simpl.
  - now rewrite N'.
  - destruct (String.eqb k k0) eqn:E; simpl.
    + apply String.eqb_eq in E. subst k0. now rewrite N'.
    + now rewrite IH.
Qed.

Lemma dict_get_None k (d : PyDict.t V) :
  PyDict.get k d = None <-> ~ In k (PyDict.keys d).
Proof.
  induction d as [|[k' v'] d IH]; simpl; [tauto|].
  destruct (String.eqb_spec k k') as [-> | N].
  - split; [discriminate | intros H; exfalso; apply H; now left].
  - rewrite IH. split; intros H; [intros [E | I]; [congruence | tauto] | tauto].
Qed.

Lemma dict_get_In k (v : V) d : PyDict.get k d = Some v -> In (k, v) d.
Proof.
  induction d as [|[k' v'] d IH]; simpl; [discriminate|].
  destruct (String.eqb_spec k k') as [-> | N].
  - intros [= ->]. now left.
  - intros H. right. now apply IH.
Qed.

Lemma dict_In_get k (v : V) d :
  NoDup (PyDict.keys d) -> In (k, v) d -> PyDict.get k d = Some v.
Proof.
  induction d as [|[k' v'] d IH]; simpl; intros N H; [contradiction|].
  inversion N as [|? ? Hk N']; subst.
  destruct H as [[= -> ->] | H].
  - now rewrite String.eqb_refl.
  - destruct (String.eqb_spec k k') as [-> | _]; [|now apply IH].
    exfalso. apply Hk. change k' with (fst (k', v)). now apply in_map.
Qed.

Lemma dict_keys_set k (v : V) d :
  PyDict.keys (PyDict.set k v d)
  = match PyDict.get k d with
    | Some _ => PyDict.keys d
    | None => PyDict.keys d ++ [k]
    end.
Proof.
  induction d as [|[k' v'] d IH]; simpl; [reflexivity|].
  destruct (String.eqb_spec k k') as [-> | N]; simpl; [reflexivity|].
  rewrite IH. now destruct (PyDict.get k d).
Qed.

Lemma dict_keys_set_NoDup k (v : V) d :
  NoDup (PyDict.keys d) -> NoDup (PyDict.keys (PyDict.set k v d)).
Proof.
  intros N. rewrite dict_keys_set.
  destruct (PyDict.get k d) eqn:E; [exact N|].
  apply dict_get_None in E.
  apply NoDup_app; [exact N | repeat constructor; simpl; tauto | ].
  intros x Hx [<- | []]. exact (E Hx).
Qed.

Lemma dict_length_set k (v : V) d :
  List.length (PyDict.set k v d)
  = match PyDict.get k d with
    | Some _ => List.length d
    | None => S (List.length d)
    end.
Proof.
  induction d as [|[k' v'] d IH]; simpl; [reflexivity|].
  destruct (String.eqb_spec k k') as [-> | N]; simpl; [reflexivity|].
  rewrite IH. now destruct (PyDict.get k d).
Qed.

End Dict.

Lemma sum_counts_set k v d :
  sum_counts (PyDict.set k v d)
  = sum_counts d
    - match PyDict.get k d with Some n => n | None => 0 end + v.
Proof.
  unfold sum_counts. induction d as [|[k' v'] d IH]; simpl; [lia|].
  destruct (String.eqb_spec k k') as [-> | N]; simpl; [lia|].
  rewrite IH. lia.
Qed.

(** ** Descending sorts *)

Section SortedDesc.

Context {A : Type}.
Variable key : A -> Z.

Lemma desc_insert_perm x l : Permutation (x :: l) (desc_insert key x l).
Proof.
  induction l as [|y l IH]; simpl; [apply Permutation_refl|].
  destruct (key x <? key y).
  - eapply perm_trans; [apply perm_swap | now apply perm_skip].
  - apply Permutation_refl.
Qed.

Lemma sorted_desc_perm l : Permutation l (sorted_desc key l).
Proof.
  induction l as [|x l IH]; simpl; [constructor|].
  eapply perm_trans; [apply perm_skip, IH | apply desc_insert_perm].
Qed.

Lemma desc_insert_sorted x l :
  StronglySorted (fun a b => key b <= key a) l ->
  StronglySorted (fun a b => key b <= key a) (desc_insert key x l).
Proof.
  induction 1 as [|y l Hs IH Hy]; simpl.
  - constructor; constructor.
  - destruct (Z.ltb_spec (key x) (key y)) as [Hlt | Hge].
    + constructor; [exact IH|].
      eapply Permutation_Forall; [apply desc_insert_perm|].
      constructor; [lia | exact Hy].
    + constructor; [constructor; assumption|].
      constructor; [exact Hge|].
      eapply Forall_impl; [|exact Hy]. intros z Hz. simpl in Hz. lia.
Qed.

Lemma sorted_desc_sorted l :
  StronglySorted (fun a b => key b <= key a) (sorted_desc key l).
Proof.
  induction l as [|x l IH]; simpl; [constructor | now apply desc_insert_sorted].
Qed.

(** Stability: the items with a given key keep their order. *)
Lemma desc_insert_stable n x l :
  filter (fun a => key a =? n) (desc_insert key x l)
  = filter (fun a => key a =? n) (x :: l).
Proof.
  induction l as [|y l IH]; [reflexivity|].
  simpl desc_insert. destruct (Z.ltb_spec (key x) (key y)) as [Hlt | Hge];
    [|reflexivity].
  simpl in IH |- *. rewrite IH.
  destruct (Z.eqb_spec (key x) n) as [Ex | Nx];
    destruct (Z.eqb_spec (key y) n) as [Ey | Ny]; try reflexivity.
  lia.
Qed.

Lemma sorted_desc_stable n l :
  filter (fun a => key a =? n) (sorted_desc key l)
  = filter (fun a => key a =? n) l.
Proof.
  induction l as [|x l IH]; [reflexivity|].
  simpl sorted_desc. rewrite desc_insert_stable. simpl. now rewrite IH.
Qed.

End SortedDesc.

(** ** The summary *)

Section Summary.

Lemma summary_extensions_snoc l f :
  summary_extensions (l ++ [f])
  = PyDict.set (ext_label f)
      (match PyDict.get (ext_label f) (summary_extensions l) with
       | Some n => n
       | None => 0
       end + 1)
      (summary_extensions l).
Proof. unfold summary_extensions. now rewrite fold_left_app. Qed.

Lemma label_count_snoc k l f :
  label_count k (l ++ [f])
  = label_count k l + (if String.eqb (ext_label f) k then 1 else 0).
Proof.
  unfold label_count. rewrite filter_app, length_app. simpl.
  destruct (String.eqb (ext_label f) k); simpl; lia.
Qed.

Lemma label_count_nonneg k l : 0 <= label_count k l.
Proof. unfold label_count. lia. Qed.

(** The state of the breakdown loop after the files of [l]. *)
Lemma summary_extensions_inv l :
  NoDup (PyDict.keys (summary_extensions l)) /\
  (forall k,
      PyDict.get k (summary_extensions l)
      = if label_count k l =? 0 then None else Some (label_count k l)) /\
  sum_counts (summary_extensions l) = Z.of_nat (List.length l).
Proof.
  induction l as [|f l IH] using rev_ind.
  - split; [constructor|]. split; [intros k; reflexivity | reflexivity].
  - destruct IH as (N & G & S). rewrite summary_extensions_snoc.
    assert (C : match PyDict.get (ext_label f) (summary_extensions l) with
                | Some n => n
                | None => 0
                end = label_count (ext_label f) l).
    { rewrite G. destruct (Z.eqb_spec (label_count (ext_label f) l) 0);
        congruence. }
    split; [now apply dict_keys_set_NoDup|]. split.
    + intros k. rewrite label_count_snoc.
      pose proof (label_count_nonneg k l) as P.
      destruct (String.eqb_spec (ext_label f) k) as [<- | Nk].
      * rewrite dict_get_set_eq, C.
        destruct (Z.eqb_spec (label_count (ext_label f) l + 1) 0);
          [lia | reflexivity].
      * rewrite dict_get_set_neq by exact Nk. rewrite G.
        now rewrite Z.add_0_r.
    + rewrite sum_counts_set, S, length_app. simpl. lia.
Qed.

End Summary.

(** The breakdown by file type counts every file exactly once: the labels
    of the dictionary are distinct, a label is present exactly when some
    file carries it, its count is the number of those files, and the counts
    add up to the number of files. *)
Theorem summary_breakdown_counts_each_file_once (files_data : list FileRecord) :
  let extensions := summary_extensions files_data in
  NoDup (PyDict.keys extensions) /\
  (forall label n,
      In (label, n) extensions <->
      n = label_count label files_data /\ 0 < n) /\
  sum_counts extensions = Z.of_nat (List.length files_data).
Proof.
  intros extensions. subst extensions.
  destruct (summary_extensions_inv files_data) as (N & G & S).
  split; [exact N|]. split; [|exact S].
  intros label n. pose proof (label_count_nonneg label files_data) as P.
  split.
  - intros H. apply (dict_In_get _ _ _ N) in H. rewrite G in H.
    destruct (Z.eqb_spec (label_count label files_data) 0);
      [discriminate|]. injection H as <-. lia.
  - intros [-> H]. apply dict_get_In. rewrite G.
    destruct (Z.eqb_spec (label_count label files_data) 0); [lia | reflexivity].
Qed.

(** The file types are printed in descending order of their counts; they
    are the items of the dictionary, and the types with the same count
    stay in the order of the dictionary. *)
Theorem summary_file_types_descending (files_data : list FileRecord) :
  let file_types := summary_file_types files_data in
  Permutation (summary_extensions files_data) file_types /\
  StronglySorted (fun a b => snd b <= snd a) file_types /\
  forall n,
    filter (fun item => snd item =? n) file_types
    = filter (fun item => snd item =? n) (summary_extensions files_data).
Proof.
  intros file_types. subst file_types. unfold summary_file_types.
  split; [apply sorted_desc_perm|].
  split; [apply sorted_desc_sorted | intros n; apply sorted_desc_stable].
Qed.

(** The list of largest files holds five files, or all of them when there
    are fewer, in descending order of their token estimates; no file left
    out has a larger estimate than a listed one. *)
Theorem summary_largest_are_the_top_five (files_data : list FileRecord) :
  let largest := summary_largest files_data in
  List.length largest = Nat.min 5 (List.length files_data) /\
  StronglySorted (fun a b => tokens b <= tokens a) largest /\
  exists others,
    Permutation files_data (largest ++ others) /\
    forall x y, In x largest -> In y others -> tokens y <= tokens x.
Proof.
  intros largest. subst largest. unfold summary_largest.
  pose proof (sorted_desc_perm tokens files_data) as P.
  pose proof (sorted_desc_sorted tokens files_data) as S.
  rewrite <- (firstn_skipn 5 (sorted_desc tokens files_data)) in P, S.
  split; [|split].
  - rewrite length_firstn. f_equal. symmetry.
    apply Permutation_length, sorted_desc_perm.
  - clear P. revert S.
    generalize (firstn 5 (sorted_desc tokens files_data)) as l1.
    generalize (skipn 5 (sorted_desc tokens files_data)) as l2.
    intros l2 l1. induction l1 as [|x l1 IH]; simpl; intros S;
      [constructor|].
    inversion S as [|? ? S' F]; subst. constructor; [now apply IH|].
    apply Forall_app in F. tauto.
  - exists (skipn 5 (sorted_desc tokens files_data)). split; [exact P|].
    clear P. revert S.
    generalize (firstn 5 (sorted_desc tokens files_data)) as l1.
    generalize (skipn 5 (sorted_desc tokens files_data)) as l2.
    intros l2 l1. induction l1 as [|a l1 IH]; simpl; intros S x y Hx Hy;
      [contradiction|].
    inversion S as [|? ? S' F]; subst. destruct Hx as [<- | Hx].
    + rewrite Forall_forall in F. apply F. apply in_or_app. now right.
    + now apply (IH S').
Qed.

(** The figures on two sample lists. *)
Example summary_scenario :
  summary_file_types sample_selected
  = [(".py", 3); ("no extension", 1); (".JS", 1)] /\
  map tokens (summary_largest (sample_selected ++ sample_selected))
  = [9; 9; 7; 7; 7] /\
  paths (summary_largest (sample_selected ++ sample_selected))
  = ["src/d.JS"; "src/d.JS"; "src/b.py"; "Makefile"; "src/b.py"].
Proof. vm_compute. repeat split. Qed.

(** ** The tree view *)

Section Tree.

Lemma dict_set_set {V} k (v v' : V) d :
  PyDict.set k v (PyDict.set k v' d) = PyDict.set k v d.
Proof.
  induction d as [|[k0 v0] d IH]; simpl.
  - now rewrite String.eqb_refl.
  - destruct (String.eqb k k0) eqn:E; simpl.
    + now rewrite String.eqb_refl.
    + now rewrite E, IH.
Qed.

(** The number of files held by the groups. *)
Lemma grouped_set k (v : list FileRecord) d :
  (List.length (flat_map snd (PyDict.set k v d))
   + List.length (match PyDict.get k d with Some old => old | None => [] end)
   = List.length (flat_map snd d) + List.length v)%nat.
Proof.
  induction d as [|[k0 v0] d IH]; simpl.
  - rewrite app_nil_r. lia.
  - destruct (String.eqb k k0); simpl; rewrite !length_app; lia.
Qed.

(** One pass of the first loop, with the two dictionary statements put
    together. *)
Lemma tree_visit_eq tree_lines dirs f :
  tree_visit (tree_lines, dirs) f
  = if is_nested f
    then (tree_lines,
          PyDict.set (hd "" (path f))
            (match PyDict.get (hd "" (path f)) dirs with
             | Some old => old
             | None => []
             end ++ [f])
            dirs)
    else (tree_lines ++ [top_line f], dirs).
Proof.
  unfold tree_visit, is_nested.
  destruct (1 <? List.length (path f))%nat; [|reflexivity].
  destruct (PyDict.get (hd "" (path f)) dirs) as [old|] eqn:E.
  - now rewrite E.
  - now rewrite dict_get_set_eq, dict_set_set.
Qed.

Lemma group_files_snoc k l f :
  group_files k (l ++ [f])
  = group_files k l
    ++ (if is_nested f && String.eqb (hd "" (path f)) k then [f] else []).
Proof. unfold group_files. now rewrite filter_app. Qed.

(** The state of the first loop after the files of [l]. *)
Lemma tree_loop_inv header l :
  exists dirs,
    fold_left tree_visit l ([header], [])
    = (header :: map top_line (filter (fun f => negb (is_nested f)) l), dirs)
    /\ NoDup (PyDict.keys dirs)
    /\ (forall k,
           PyDict.get k dirs
           = match group_files k l with
             | [] => None
             | fl => Some fl
             end)
    /\ List.length (flat_map snd dirs) = List.length (filter is_nested l).
Proof.
  induction l as [|f l IH] using rev_ind.
  - exists []. simpl. repeat split. constructor.
  - destruct IH as (dirs & E & N & G & T).
    rewrite fold_left_app, E. cbn [fold_left]. rewrite tree_visit_eq.
    rewrite !filter_app, map_app. simpl filter.
    destruct (is_nested f) eqn:Hn; simpl negb; cbv iota.
    + set (k := hd "" (path f)).
      assert (Old : match PyDict.get k dirs with
                    | Some old => old
                    | None => []
                    end = group_files k l)
        by (rewrite G; now destruct (group_files k l)).
      eexists. split; [simpl; rewrite app_nil_r; reflexivity|].
      split; [now apply dict_keys_set_NoDup|]. split.
      * intros k'. rewrite group_files_snoc, Hn. simpl.
        destruct (String.eqb_spec k k') as [<- | Nk].
        -- rewrite dict_get_set_eq, Old. subst k.
           rewrite String.eqb_refl.
           now destruct (group_files (hd "" (path f)) l).
        -- rewrite dict_get_set_neq by exact Nk. rewrite G.
           fold k. destruct (String.eqb_spec k k') as [? | _]; [contradiction|].
           now rewrite app_nil_r.
      * pose proof (grouped_set k (match PyDict.get k dirs with
                                   | Some old => old
                                   | None => []
                                   end ++ [f]) dirs) as Q.
        rewrite !length_app in Q |- *. simpl in Q |- *. lia.
    + exists dirs. split; [reflexivity|]. split; [exact N|]. split.
      * intros k'. rewrite group_files_snoc, Hn. simpl.
        now rewrite app_nil_r.
      * rewrite length_app. simpl. lia.
Qed.

Lemma tree_groups_lines dirs :
  forall tree_lines,
    fold_left tree_group dirs tree_lines
    = tree_lines ++ flat_map group_lines dirs.
Proof.
  induction dirs as [|[k fl] dirs IH]; intros tree_lines; simpl.
  - now rewrite app_nil_r.
  - rewrite IH. unfold group_lines. simpl. rewrite <- !app_assoc. reflexivity.
Qed.

Lemma group_lines_length dirs :
  List.length (flat_map group_lines dirs)
  = (List.length dirs + List.length (flat_map snd dirs))%nat.
Proof.
  induction dirs as [|[k fl] dirs IH]; simpl; [reflexivity|].
  rewrite !length_app, length_map, IH. lia.
Qed.

Lemma filter_split_length {A} (p : A -> bool) l :
  (List.length (filter p l) + List.length (filter (fun x => negb (p x)) l)
   = List.length l)%nat.
Proof.
  induction l as [|x l IH]; simpl; [reflexivity|].
  destruct (p x); simpl; lia.
Qed.

End Tree.

(** The tree view is the header, one line for each file at the top level
    in the order of the list, then one block for each first path segment
    of the other files: the blocks have distinct names, a block lists
    exactly the files below its segment in the order of the list, by base
    name only, and in all there is one line for each file, one for each
    block and the header. *)
Theorem tree_view_structure (root : Path) (files_data : list FileRecord) :
  exists dirs,
    generate_tree_lines root files_data
    = (String.append "📁 " (String.append (root_name root) "/")
       :: map top_line (filter (fun f => negb (is_nested f)) files_data))
      ++ flat_map group_lines dirs /\
    NoDup (PyDict.keys dirs) /\
    (forall dir_name files,
        In (dir_name, files) dirs <->
        files = group_files dir_name files_data /\ files <> []) /\
    List.length (generate_tree_lines root files_data)
    = (1 + List.length files_data + List.length dirs)%nat.
Proof.
  unfold generate_tree_lines.
  destruct (tree_loop_inv
              (String.append "📁 " (String.append (root_name root) "/"))
              files_data) as (dirs & E & N & G & T).
  rewrite E, tree_groups_lines. exists dirs.
  split; [reflexivity|]. split; [exact N|]. split.
  - intros k fl. split.
    + intros H. apply (dict_In_get _ _ _ N) in H. rewrite G in H.
      destruct (group_files k files_data); [discriminate|].
      injection H as <-. split; [reflexivity | discriminate].
    + intros [-> H]. apply dict_get_In. rewrite G.
      destruct (group_files k files_data); [now contradiction H | reflexivity].
  - rewrite length_app, group_lines_length, T. simpl.
    rewrite length_map.
    pose proof (filter_split_length is_nested files_data). lia.
Qed.

(** The tree of a sample selection. *)
Example tree_view_scenario :
  generate_tree_lines ["/"; "home"; "proj"] sample_selected
  = [ "📁 proj/"; "├── a.py"; "├── Makefile"; "├── 📁 src/";
      "│   ├── b.py"; "│   ├── d.JS"; "├── 📁 lib/"; "│   ├── c.py" ].
Proof. vm_compute. reflexivity. Qed.

(** ** Smallest files first *)

Section SmallestFirst.

Lemma sub_list_length {A} (s l : list A) :
  sub_list s l -> (List.length s <= List.length l)%nat.
Proof. induction 1; simpl; lia. Qed.

Lemma sub_list_In {A} (s l : list A) x : sub_list s l -> In x s -> In x l.
Proof.
  induction 1 as [|y s l Hs IH|y s l Hs IH]; simpl; intros Hx;
    [contradiction | | right; auto].
  destruct Hx; [now left | right; auto].
Qed.

Lemma sum_tokens_cons x l : sum_tokens (x :: l) = tokens x + sum_tokens l.
Proof. reflexivity. Qed.

Lemma sum_firstn_S l :
  StronglySorted (fun a b => tokens a <= tokens b) l ->
  forall x n,
    Forall (fun y => tokens x <= tokens y) l ->
    (n < List.length l)%nat ->
    tokens x + sum_tokens (firstn n l) <= sum_tokens (firstn (S n) l).
Proof.
  induction 1 as [|y l Hs IH F]; intros x n Fx Hn; simpl in Hn; [lia|].
  inversion Fx as [|? ? Hxy Fx']; subst.
  destruct n as [|n].
  - simpl. lia.
  - change (firstn (S (S n)) (y :: l)) with (y :: firstn (S n) l).
    change (firstn (S n) (y :: l)) with (y :: firstn n l).
    rewrite !sum_tokens_cons.
    specialize (IH x n Fx' ltac:(lia)). lia.
Qed.

(** Among the sub-lists of a list sorted by tokens, the leading files have
    the smallest sum for their number. *)
Lemma sum_firstn_least l :
  StronglySorted (fun a b => tokens a <= tokens b) l ->
  forall s,
    sub_list s l ->
    sum_tokens (firstn (List.length s) l) <= sum_tokens s.
Proof.
  intros Hs s H. induction H as [|x s l H IH|x s l H IH].
  - simpl. lia.
  - inversion Hs; subst. simpl. specialize (IH ltac:(assumption)). lia.
  - inversion Hs as [|? ? Hs' F]; subst. specialize (IH Hs').
    destruct s as [|a s]; [simpl; lia|].
    change (firstn (List.length (a :: s)) (x :: l))
      with (x :: firstn (List.length s) l).
    rewrite sum_tokens_cons.
    pose proof (sub_list_length _ _ H) as L. simpl in L.
    pose proof (sum_firstn_S l Hs' x (List.length s) F ltac:(lia)) as Q.
    simpl List.length in IH. lia.
Qed.

Lemma sum_firstn_nonneg l :
  Forall (fun f => 0 <= tokens f) l ->
  forall n, 0 <= sum_tokens (firstn n l).
Proof.
  induction 1 as [|x l Hx F IH]; intros [|n]; simpl; try lia.
  specialize (IH n). lia.
Qed.

Lemma sum_firstn_mono l :
  Forall (fun f => 0 <= tokens f) l ->
  forall n m, (n <= m)%nat ->
    sum_tokens (firstn n l) <= sum_tokens (firstn m l).
Proof.
  intros F. pose proof F as F0.
  induction F as [|x l Hx F IH]; intros n m Hnm.
  - rewrite !firstn_nil. lia.
  - destruct n as [|n].
    + simpl firstn at 1. simpl sum_tokens at 1.
      now apply sum_firstn_nonneg.
    + destruct m as [|m]; [lia|]. simpl.
      specialize (IH F n m ltac:(lia)). lia.
Qed.

Lemma key_sorted_tokens l :
  StronglySorted key_le l ->
  StronglySorted (fun a b => tokens a <= tokens b) l.
Proof.
  induction 1 as [|x l Hs IH F]; constructor; [exact IH|].
  eapply Forall_impl; [|exact F]. intros y [H | [H _]]; lia.
Qed.

End SmallestFirst.

Lemma reorder_no_priority prio l : truthy prio = false -> reorder prio l = l.
Proof. intros H. unfold reorder. now rewrite H. Qed.

(** Without a priority list the walk takes the smallest files first, and
    this selects as many files as the budget allows: no choice of
    candidates whose token estimates add up to at most [B] has more files
    than the selection. *)
Theorem selection_has_most_files_without_priority
    (root : Path) (fs : list FsEntry) (B : Z)
    (custom_extensions priority_files : option (list string))
    (s : list FileRecord) :
  truthy priority_files = false ->
  let g := generate_context_file root fs B custom_extensions priority_files in
  sub_list s (candidates g) ->
  sum_tokens s <= B ->
  (List.length s <= List.length (selected_files g))%nat.
Proof.
  intros Hp g Hs Hsum.
  destruct (generate_walk root fs B custom_extensions priority_files)
    as (post & Hc & _ & _ & Hpost).
  fold g in Hc, Hpost.
  pose proof (sub_list_length _ _ Hs) as Hlen.
  destruct Hpost as [-> | (f & post' & -> & Hover)].
  - rewrite app_nil_r in Hc. now rewrite <- Hc.
  - destruct (Nat.le_gt_cases (List.length s) (List.length (selected_files g)))
      as [Hle | Hgt]; [exact Hle | exfalso].
    assert (Sorted : StronglySorted (fun a b => tokens a <= tokens b)
                       (candidates g)).
    { subst g. rewrite generate_candidates, reorder_no_priority by exact Hp.
      apply key_sorted_tokens, scan_sorted. }
    pose proof (candidates_tokens_nonneg root fs B custom_extensions
                  priority_files) as Nn.
    fold g in Nn.
    pose proof (sum_firstn_least _ Sorted s Hs) as Least.
    pose proof (sum_firstn_mono _ Nn (S (List.length (selected_files g)))
                  (List.length s) ltac:(lia)) as Mono.
    assert (E : firstn (S (List.length (selected_files g))) (candidates g)
                = selected_files g ++ [f]).
    { rewrite Hc, firstn_app.
      rewrite firstn_all2 by lia.
      replace (S (List.length (selected_files g))
               - List.length (selected_files g))%nat with 1%nat by lia.
      reflexivity. }
    rewrite E, sum_tokens_app in Mono. simpl in Mono. lia.
Qed.

Lemma selection_has_most_files_without_priority_witness :
  (List.length [mkFileRecord ["a.py"] ["a.py"] 40 1 10 (text 40)]
   <= List.length
        (selected_files (generate_context_file [] tree_a_b 15 None None)))%nat.
Proof.
  apply (selection_has_most_files_without_priority [] tree_a_b 15 None None).
  - reflexivity.
  - vm_compute. repeat constructor.
  - vm_compute. discriminate.
Defined.

(** Without a priority list no file left out is smaller than a selected
    one. *)
Theorem excluded_files_not_smaller_without_priority
    (root : Path) (fs : list FsEntry) (B : Z)
    (custom_extensions priority_files : option (list string)) :
  truthy priority_files = false ->
  let g := generate_context_file root fs B custom_extensions priority_files in
  exists excluded,
    candidates g = selected_files g ++ excluded /\
    forall x y,
      In x (selected_files g) -> In y excluded -> tokens x <= tokens y.
Proof.
  intros Hp g.
  destruct (generate_walk root fs B custom_extensions priority_files)
    as (post & Hc & _).
  fold g in Hc. exists post. split; [exact Hc|].
  assert (Sorted : StronglySorted (fun a b => tokens a <= tokens b)
                     (candidates g)).
  { subst g. rewrite generate_candidates, reorder_no_priority by exact Hp.
    apply key_sorted_tokens, scan_sorted. }
  rewrite Hc in Sorted. clear Hc.
  induction (selected_files g) as [|a sel IH]; simpl in *;
    intros x y Hx Hy; [contradiction|].
  inversion Sorted as [|? ? S' F]; subst. destruct Hx as [<- | Hx].
  - rewrite Forall_forall in F. apply F. apply in_or_app. now right.
  - now apply (IH S').
Qed.

Lemma excluded_files_not_smaller_without_priority_witness :
  exists excluded,
    candidates (generate_context_file [] tree_a_b 15 None None)
    = selected_files (generate_context_file [] tree_a_b 15 None None)
      ++ excluded /\
    forall x y,
      In x (selected_files (generate_context_file [] tree_a_b 15 None None)) ->
      In y excluded -> tokens x <= tokens y.
Proof.
  apply (excluded_files_not_smaller_without_priority [] tree_a_b 15 None None).
  reflexivity.
Defined.

(** ** The figures of a selection *)

Section SelectedFigures.

Lemma record_figures root fs B exts f :
  In f (fst (scan_codebase root fs B exts)) ->
  1 <= lines f /\ 4 * tokens f <= size f < 4 * tokens f + 4.
Proof.
  intros Hf. apply scan_In in Hf. destruct Hf as (e & _ & Hv).
  apply scan_visit_Some in Hv. destruct Hv as (_ & _ & _ & t & _ & ->).
  cbn [lines tokens size].
  pose proof (count_newlines_bounds t). pose proof (estimate_tokens_bounds t).
  lia.
Qed.

Lemma figures_sum l :
  Forall (fun f => 1 <= lines f /\ 4 * tokens f <= size f < 4 * tokens f + 4)
    l ->
  Z.of_nat (List.length l) <= summary_total_lines l /\
  4 * sum_tokens l <= summary_total_size l
  <= 4 * sum_tokens l + 3 * Z.of_nat (List.length l).
Proof.
  induction 1 as [|x l Hx F IH].
  - simpl. lia.
  - unfold summary_total_lines, summary_total_size in *.
    rewrite sum_tokens_cons. simpl fold_right. simpl List.length. lia.
Qed.

End SelectedFigures.

(** The summary of a run agrees with its header: the total size of the
    selected files is at least four times the running total of tokens and
    exceeds it by at most three characters for each file, and the total
    line count is at least the number of selected files. *)
Theorem selected_size_matches_running_tokens
    (root : Path) (fs : list FsEntry) (B : Z)
    (custom_extensions priority_files : option (list string)) :
  let g := generate_context_file root fs B custom_extensions priority_files in
  let n := Z.of_nat (List.length (selected_files g)) in
  n <= summary_total_lines (selected_files g) /\
  4 * running_tokens g <= summary_total_size (selected_files g)
  <= 4 * running_tokens g + 3 * n.
Proof.
  intros g n. subst n.
  destruct (generate_walk root fs B custom_extensions priority_files)
    as (post & _ & Hr & _).
  fold g in Hr. rewrite Hr. apply figures_sum.
  apply Forall_forall. intros f Hf.
  apply selected_In_candidates, candidates_In_scan in Hf.
  exact (record_figures root fs B custom_extensions f Hf).
Qed.

